(** * Skydive: sFlow agent allocator, OVS sFlow probe handler and alert engine

    A shallow embedding of
      - [sflow/agent.go]              (module [Sflow]),
      - [flow/probes/ovssflow.go]     (module [OvsSFlow]),
      - the earlier revision of the probe handler that resolves probe paths
        through a cache and a bounded channel (module [OvsSFlowCache]),
      - [topology/graph/alert.go]     (module [Alert]),
    together with the properties of the specification that concern them. *)

From Stdlib Require Import ZArith Lia Ascii String List.
From stdpp Require Import base decidable option list strings gmap fin_maps pretty.

Local Open Scope Z_scope.
Local Open Scope string_scope.
Local Open Scope list_scope.

(** ** Go runtime conventions shared by all modules *)

(** Go's [int] on the supported platforms is a 64-bit two's complement
    integer; arithmetic wraps around silently. *)
Definition int_min : Z := - 2 ^ 63.
Definition int_max : Z := 2 ^ 63 - 1.
Definition wrap_int (z : Z) : Z := (z + 2 ^ 63) `mod` 2 ^ 64 - 2 ^ 63.
Definition in_int (z : Z) : Prop := int_min <= z <= int_max.

(** A Go [error] value.  [AgentAlreadyAllocated] is the package level
    sentinel of [sflow]; every other error is built by [errors.New] (or comes
    from a library) and is never equal to the sentinel. *)
Inductive error : Type :=
  | AgentAlreadyAllocated
  | errors_New (msg : string).

Global Instance error_eq_dec : EqDecision error.
Proof. solve_decision. Defined.

(** What a Go call can do: return, or panic (nil dereference, failed type
    assertion, slice bounds). *)
Inductive outcome (A : Type) : Type :=
  | Returns (a : A)
  | Panics (why : string).
Arguments Returns {A} a.
Arguments Panics {A} why.

(** [strconv.FormatInt(i, 10)]. *)
Definition FormatInt10 (i : Z) : string := pretty i.

(** ** sflow/agent.go *)
Module Sflow.

Section WithPathSetter.

(** [flow.FlowProbePathSetter] is an interface; the allocator only stores it. *)
Context {PathSetter : Type}.

(** The fields of [SFlowAgent] that the allocator and the probe handler read
    or write.  [running] is the [atomic.Value]: [None] until the first
    [Store]. *)
Record SFlowAgent : Type := mkSFlowAgent {
  UUID : string;
  Addr : string;
  Port : Z;
  FlowProbePathSetter : option PathSetter;
  running : option bool;
}.

Definition GetTarget (sfa : SFlowAgent) : string :=
  Addr sfa +:+ ":" +:+ FormatInt10 (Port sfa).

Definition NewSFlowAgent (u a : string) (p : Z) : SFlowAgent :=
  {| UUID := u; Addr := a; Port := p;
     FlowProbePathSetter := None; running := None |}.

Definition SetFlowProbePathSetter (sfa : SFlowAgent) (p : PathSetter) : SFlowAgent :=
  {| UUID := UUID sfa; Addr := Addr sfa; Port := Port sfa;
     FlowProbePathSetter := Some p; running := running sfa |}.

Definition set_running (sfa : SFlowAgent) (b : bool) : SFlowAgent :=
  {| UUID := UUID sfa; Addr := Addr sfa; Port := Port sfa;
     FlowProbePathSetter := FlowProbePathSetter sfa; running := Some b |}.

(** [start]: the body run by the background task.  [ListenUDP] is the
    operating system's answer to [net.ListenUDP] for an address and a port:
    [None] for a connection, [Some err] for a failure.  On a failure the
    error is logged and returned and nothing else happens; otherwise the
    running flag is stored and the read loop is entered ([start] returns
    [nil] once the loop is left). *)
Definition start (ListenUDP : string -> Z -> option error) (sfa : SFlowAgent)
  : SFlowAgent * option error :=
  match ListenUDP (Addr sfa) (Port sfa) with
  | Some err => (sfa, Some err)
  | None => (set_running sfa true, None)
  end.

(** [Stop]: flips the flag when it is set and joins the task. *)
Definition Stop (sfa : SFlowAgent) : SFlowAgent :=
  match running sfa with
  | Some true => set_running sfa false
  | _ => sfa
  end.

(** The allocator with the tasks its agents have spawned.  [allocated] is the
    Go map from port to agent; [spawned] lists, oldest first, the ports of
    the agents on which [Start] ran [go sfa.start()].  What such a task
    returns is dropped by the [go] statement. *)
Record SFlowAgentAllocator : Type := mkAllocator {
  allocated : gmap Z SFlowAgent;
  spawned : list Z;
}.

Definition NewSFlowAgentAllocator : SFlowAgentAllocator :=
  {| allocated := ∅; spawned := [] |}.

(** [Start] is [go sfa.start()]: it has no result and only schedules the
    task. *)
Definition Start (sfa : SFlowAgent) (tasks : list Z) : list Z :=
  tasks ++ [Port sfa].

(** The configuration keys read by [Alloc]; an unset key reads as the zero
    value. *)
Record Config : Type := mkConfig {
  sflow_bind_address : string;
  sflow_port_min : Z;
  sflow_port_max : Z;
}.

Definition address_of (c : Config) : string :=
  if decide (sflow_bind_address c = "") then "127.0.0.1" else sflow_bind_address c.
Definition min_of (c : Config) : Z :=
  if decide (sflow_port_min c = 0) then 6345 else sflow_port_min c.
Definition max_of (c : Config) : Z :=
  if decide (sflow_port_max c = 0) then 6355 else sflow_port_max c.

(** [for _, agent := range a.allocated { if uuid == agent.UUID {...} }] *)
Definition find_agent (uuid : string) (m : gmap Z SFlowAgent) : option SFlowAgent :=
  snd <$> List.find (λ pa, bool_decide (uuid = UUID (snd pa))) (map_to_list m).

(** [for i := min; i != max+1; i++]: the loop body runs once for each of the
    [(max + 1 - min) mod 2^64] values between [min] and [max + 1], unless it
    returns earlier. *)
Definition iterations (min max : Z) : nat :=
  Z.to_nat ((wrap_int (max + 1) - min) `mod` 2 ^ 64).

Fixpoint scan_ports (m : gmap Z SFlowAgent) (n : nat) (i : Z) : option Z :=
  match n with
  | O => None
  | S n' =>
      match m !! i with
      | None => Some i
      | Some _ => scan_ports m n' (wrap_int (i + 1))
      end
  end.

Definition port_exhausted : error := errors_New "sflow port exhausted".

Definition Alloc (c : Config) (uuid : string) (p : PathSetter)
    (a : SFlowAgentAllocator) : (option SFlowAgent * option error) * SFlowAgentAllocator :=
  let address := address_of c in
  let min := min_of c in
  let max := max_of c in
  match find_agent uuid (allocated a) with
  | Some agent => ((Some agent, Some AgentAlreadyAllocated), a)
  | None =>
      match scan_ports (allocated a) (iterations min max) min with
      | Some i =>
          let s := SetFlowProbePathSetter (NewSFlowAgent uuid address i) p in
          ((Some s, None),
           {| allocated := <[i := s]> (allocated a);
              spawned := Start s (spawned a) |})
      | None => ((None, Some port_exhausted), a)
      end
  end.

(** The agent [Alloc] builds and starts on port [port]. *)
Definition fresh_agent (c : Config) (uuid : string) (port : Z) (p : PathSetter)
  : SFlowAgent :=
  SetFlowProbePathSetter (NewSFlowAgent uuid (address_of c) port) p.

(** [Release]: every agent with this uuid is stopped and deleted. *)
Definition Release (uuid : string) (a : SFlowAgentAllocator) : SFlowAgentAllocator :=
  {| allocated := filter (λ pa, uuid ≠ UUID (snd pa)) (allocated a);
     spawned := spawned a |}.

Definition ReleaseAll (a : SFlowAgentAllocator) : SFlowAgentAllocator :=
  {| allocated := ∅; spawned := spawned a |}.

Definition Agents (a : SFlowAgentAllocator) : list SFlowAgent :=
  snd <$> map_to_list (allocated a).

(** The range [Alloc] scans is a range of Go integers. *)
Definition valid_range (c : Config) : Prop :=
  int_min <= min_of c /\ min_of c <= max_of c /\ max_of c < int_max.

(** Every agent sits at its own port, inside the range, and no two agents
    share a uuid. *)
Definition alloc_inv (c : Config) (a : SFlowAgentAllocator) : Prop :=
  (forall port s, allocated a !! port = Some s ->
     Port s = port /\ min_of c <= port <= max_of c)
  /\ (forall p q s t, allocated a !! p = Some s -> allocated a !! q = Some t ->
       UUID s = UUID t -> p = q).

(** The allocators that the operations build from the empty one, under one
    configuration. *)
Inductive reachable (c : Config) : SFlowAgentAllocator -> Prop :=
  | reach_new : reachable c NewSFlowAgentAllocator
  | reach_Alloc a uuid p :
      reachable c a -> reachable c (snd (Alloc c uuid p a))
  | reach_Release a uuid :
      reachable c a -> reachable c (Release uuid a)
  | reach_ReleaseAll a :
      reachable c a -> reachable c (ReleaseAll a).

End WithPathSetter.

Arguments SFlowAgent : clear implicits.
Arguments SFlowAgentAllocator : clear implicits.

(** A configuration with the two ports 6345 and 6346, and an operating
    system on which every bind fails. *)
Definition two_ports : Config :=
  {| sflow_bind_address := ""; sflow_port_min := 6345; sflow_port_max := 6346 |}.

Definition address_in_use : error := errors_New "bind: address already in use".
Definition no_bind : string -> Z -> option error := fun _ _ => Some address_in_use.

End Sflow.

(** ** The topology graph, as far as the handlers and the alert engine use it *)
Module Graph.

(** A metadata value: Go's [interface{}] holding one of the scalar types the
    topology probes store.  A missing key reads as the nil interface, which
    is [None] in [Metadata]'s lookup. *)
Inductive GoKind : Type :=
  | KUint8 | KUint16 | KUint32 | KUint64 | KUint | KUintptr
  | KInt8 | KInt16 | KInt32 | KInt64 | KInt.

Inductive Value : Type :=
  | VBool (b : bool)
  | VNum (k : GoKind) (z : Z)
  | VFloat32 (bits : Z)
  | VFloat64 (bits : Z)
  | VString (s : string).

Global Instance GoKind_eq_dec : EqDecision GoKind.
Proof. solve_decision. Defined.

Global Instance Value_eq_dec : EqDecision Value.
Proof. solve_decision. Defined.

Abbreviation Metadata := (gmap string Value).

Record Node : Type := mkNode {
  ID : string;
  metadata : Metadata;
}.

Global Instance Node_eq_dec : EqDecision Node.
Proof. solve_decision. Defined.

(** The edge predicates of package [topology] that the handlers pass to
    [LookupShortestPath]. *)
Inductive EdgePredicate : Type := IsOwnershipEdge | IsLayer2Edge.

(** [x == s] and [x != s] for an interface value [x] and a string [s]: equal
    only when [x] holds that very string. *)
Definition eq_string (x : option Value) (s : string) : bool :=
  bool_decide (x = Some (VString s)).

(** [x.(string)]: panics unless [x] holds a string. *)
Definition assert_string (x : option Value) : outcome string :=
  match x with
  | Some (VString s) => Returns s
  | _ => Panics "interface conversion: interface {} is not string"
  end.

End Graph.

(** ** flow/probes/ovssflow.go *)
Module OvsSFlow.

Import Graph.

Record OvsSFlowProbe : Type := mkProbe {
  ID : string;
  Interface : string;
  Target : string;
  HeaderSize : Z;
  Sampling : Z;
  Polling : Z;
  ProbeGraphPath : string;
}.

Definition set_Target (p : OvsSFlowProbe) (t : string) : OvsSFlowProbe :=
  {| ID := ID p; Interface := Interface p; Target := t;
     HeaderSize := HeaderSize p; Sampling := Sampling p; Polling := Polling p;
     ProbeGraphPath := ProbeGraphPath p |}.

(** [strings.Replace(i, "-", "_", -1)] *)
Fixpoint replace_dash (s : string) : string :=
  match s with
  | EmptyString => EmptyString
  | String c s' =>
      String (if Ascii.eqb c "-"%char then "_"%char else c) (replace_dash s')
  end.

Definition probeID (i : string) : string := "SkydiveSFlowProbe_" +:+ replace_dash i.

(** Values of the switch database as [libovsdb] sends them. *)
Inductive OvsValue : Type :=
  | OvsString (s : string)
  | OvsUint32 (n : Z)
  | OvsUUID (goUUID : string)
  | OvsSet (elems : list string)
  | OvsMap (goMap : gmap string string).

Definition Condition : Type := string * string * OvsValue.
Definition NewCondition (column function : string) (value : OvsValue) : Condition :=
  (column, function, value).

(** [libovsdb.Operation], with the fields the handler fills in. *)
Record Operation : Type := mkOperation {
  Op : string;
  Table : string;
  Row : gmap string OvsValue;
  Where : list Condition;
  UUIDName : string;
}.

(** A row of the [sFlow] table as a [select] returns it.  [compareProbeID]
    looks at [external_ids] only: whether it is a slice, whether the slice is
    tagged ["map"], and the entry [probe-id] of that map. *)
Inductive ExternalIds : Type :=
  | ExtNotSlice
  | ExtNotMap
  | ExtMap (goMap : gmap string string).

Record SFlowRow : Type := mkRow {
  row_uuid : string;
  external_ids : ExternalIds;
}.

Record OperationResult : Type := mkResult { Rows : list SFlowRow }.

Definition newInsertSFlowProbeOP (probe : OvsSFlowProbe) : Operation :=
  let sFlowRow : gmap string OvsValue :=
    <["external_ids" := OvsMap {["probe-id" := ID probe]}]>
    (<["polling" := OvsUint32 (Polling probe)]>
    (<["sampling" := OvsUint32 (Sampling probe)]>
    (<["header" := OvsUint32 (HeaderSize probe)]>
    (<["targets" := OvsString (Target probe)]>
    (<["agent" := OvsString (Interface probe)]> ∅))))) in
  {| Op := "insert"; Table := "sFlow"; Row := sFlowRow; Where := [];
     UUIDName := ID probe |}.

Definition compareProbeID (row : SFlowRow) (id : string) : bool :=
  match external_ids row with
  | ExtMap m =>
      match m !! "probe-id" with
      | Some value => bool_decide (value = id)
      | None => false
      end
  | _ => false
  end.

Section Handler.

(** The collaborators that are not part of these sources: the graph with its
    shortest-path query, the serialisation of a node path, the formatting of
    a node in an error message, and the switch, which answers each
    transaction as a function of the transactions sent before it. *)
Variable GraphT : Type.
Variable LookupShortestPath : GraphT -> Node -> Metadata -> EdgePredicate -> list Node.
Variable NodePath_Marshal : list Node -> string.
Variable Sprint_node : Node -> string.
Variable ovs_respond :
  list (list Operation) -> list Operation -> list OperationResult + error.

(** The process configuration read by the allocator. *)
Variable cfg : Sflow.Config.

(** [ovsClient] is represented by the transactions sent through it so far. *)
Record OvsSFlowProbesHandler : Type := mkHandler {
  Graph : GraphT;
  ovsClient : list (list Operation);
  allocator : Sflow.SFlowAgentAllocator OvsSFlowProbe;
}.

Definition with_ovsClient (o : OvsSFlowProbesHandler) (c : list (list Operation)) :=
  {| Graph := Graph o; ovsClient := c; allocator := allocator o |}.
Definition with_allocator (o : OvsSFlowProbesHandler)
    (a : Sflow.SFlowAgentAllocator OvsSFlowProbe) :=
  {| Graph := Graph o; ovsClient := ovsClient o; allocator := a |}.

(** [o.ovsClient.Exec(operations...)] *)
Definition Exec (o : OvsSFlowProbesHandler) (operations : list Operation)
  : (list OperationResult + error) * OvsSFlowProbesHandler :=
  (ovs_respond (ovsClient o) operations,
   with_ovsClient o (ovsClient o ++ [operations])).

Definition selectOp : Operation :=
  {| Op := "select"; Table := "sFlow"; Row := ∅;
     Where := [NewCondition "_uuid" "!=" (OvsUUID "abc")]; UUIDName := "" |}.

(** The loops over the results and their rows: the first row whose probe id
    compares equal. *)
Definition first_tagged (id : string) (result : list OperationResult) : option SFlowRow :=
  List.find (λ row, compareProbeID row id) (concat (Rows <$> result)).

Definition first_probe_row (id : string) (result : list OperationResult) : string :=
  match first_tagged id result with
  | Some row => row_uuid row
  | None => ""
  end.

Definition retrieveSFlowProbeUUID (o : OvsSFlowProbesHandler) (id : string)
  : (string * option error) * OvsSFlowProbesHandler :=
  let '(r, o1) := Exec o [selectOp] in
  match r with
  | inr err => (("", Some err), o1)
  | inl result => ((first_probe_row id result, None), o1)
  end.

Definition bridge_update (bridgeUUID : string) (sflow : OvsValue) : Operation :=
  {| Op := "update"; Table := "Bridge"; Row := {["sflow" := sflow]};
     Where := [NewCondition "_uuid" "==" (OvsUUID bridgeUUID)]; UUIDName := "" |}.

Definition registerSFlowProbeOnBridge (o : OvsSFlowProbesHandler)
    (probe : OvsSFlowProbe) (bridgeUUID : string)
  : option error * OvsSFlowProbesHandler :=
  let '((probeUUID, err), o1) := retrieveSFlowProbeUUID o (probeID bridgeUUID) in
  match err with
  | Some e => (Some e, o1)
  | None =>
      let '(operations, uuid) :=
        if decide (probeUUID ≠ "")
        then ([], OvsUUID probeUUID)
        else let insertOp := newInsertSFlowProbeOP probe in
             ([insertOp], OvsUUID (UUIDName insertOp)) in
      let updateOp := bridge_update bridgeUUID uuid in
      let '(r, o2) := Exec o1 (operations ++ [updateOp]) in
      match r with
      | inr e => (Some e, o2)
      | inl _ => (None, o2)
      end
  end.

Definition UnregisterSFlowProbeFromBridge (o : OvsSFlowProbesHandler)
    (bridgeUUID : string) : option error * OvsSFlowProbesHandler :=
  let '((probeUUID, err), o1) := retrieveSFlowProbeUUID o (probeID bridgeUUID) in
  match err with
  | Some e => (Some e, o1)
  | None =>
      if decide (probeUUID = "") then (None, o1)
      else
        let updateOp := bridge_update bridgeUUID (OvsSet []) in
        let '(r, o2) := Exec o1 [updateOp] in
        match r with
        | inr e => (Some e, o2)
        | inl _ => (None, o2)
        end
  end.

(** The agent of a fresh allocation holds a pointer to [probe]; the later
    assignment to [probe.Target] is therefore visible through the agent. *)
Definition alias_probe (a : Sflow.SFlowAgentAllocator OvsSFlowProbe)
    (port : Z) (probe : OvsSFlowProbe) : Sflow.SFlowAgentAllocator OvsSFlowProbe :=
  {| Sflow.allocated :=
       alter (λ s, Sflow.SetFlowProbePathSetter s probe) port (Sflow.allocated a);
     Sflow.spawned := Sflow.spawned a |}.

(** The probe [RegisterProbeOnBridge] starts from; its [Target] is assigned
    once the agent is known. *)
Definition new_probe (bridgeUUID path : string) : OvsSFlowProbe :=
  {| ID := probeID bridgeUUID; Interface := "lo"; Target := "";
     HeaderSize := 256; Sampling := 1; Polling := 0;
     ProbeGraphPath := path |}.

Definition RegisterProbeOnBridge (o : OvsSFlowProbesHandler)
    (bridgeUUID path : string) : outcome (option error * OvsSFlowProbesHandler) :=
  let probe := new_probe bridgeUUID path in
  let '((agent, err), a1) := Sflow.Alloc cfg bridgeUUID probe (allocator o) in
  if bool_decide (err ≠ None) && bool_decide (err ≠ Some AgentAlreadyAllocated)
  then Returns (err, with_allocator o a1)
  else
    match agent with
    | None => Panics "invalid memory address or nil pointer dereference"
    | Some agent =>
        let probe := set_Target probe (Sflow.GetTarget agent) in
        let a2 := if err is None then alias_probe a1 (Sflow.Port agent) probe else a1 in
        Returns (registerSFlowProbeOnBridge (with_allocator o a2) probe bridgeUUID)
    end.

Definition isOvsBridge (n : Node) : bool :=
  negb (eq_string (metadata n !! "UUID") "")
  && eq_string (metadata n !! "Type") "ovsbridge".

Definition host_metadata : Metadata := {["Type" := VString "host"]}.

Definition RegisterProbe (o : OvsSFlowProbesHandler) (n : Node)
  : outcome (option error * OvsSFlowProbesHandler) :=
  if isOvsBridge n then
    let nodes := LookupShortestPath (Graph o) n host_metadata IsOwnershipEdge in
    if decide (length nodes = 0%nat) then
      Returns (Some (errors_New ("Failed to determine probePath for " +:+ Sprint_node n)), o)
    else
      let probePath := NodePath_Marshal nodes in
      match assert_string (metadata n !! "UUID") with
      | Panics why => Panics why
      | Returns uuid => RegisterProbeOnBridge o uuid probePath
      end
  else Returns (None, o).

Definition unregisterProbe (o : OvsSFlowProbesHandler) (bridgeUUID : string)
  : option error * OvsSFlowProbesHandler :=
  UnregisterSFlowProbeFromBridge o bridgeUUID.

Definition UnregisterProbe (o : OvsSFlowProbesHandler) (n : Node)
  : outcome (option error * OvsSFlowProbesHandler) :=
  if isOvsBridge n then
    match assert_string (metadata n !! "UUID") with
    | Panics why => Panics why
    | Returns uuid => Returns (unregisterProbe o uuid)
    end
  else Returns (None, o).

Definition Stop (o : OvsSFlowProbesHandler) : OvsSFlowProbesHandler :=
  with_allocator o (Sflow.ReleaseAll (allocator o)).

(** A row is tagged with a probe id when its [external_ids] is a map whose
    entry [probe-id] is that id. *)
Definition tagged (row : SFlowRow) (id : string) : Prop :=
  exists m, external_ids row = ExtMap m /\ m !! "probe-id" = Some id.

End Handler.

Arguments Graph {GraphT} o.
Arguments ovsClient {GraphT} o.
Arguments allocator {GraphT} o.
Arguments with_ovsClient {GraphT} o c.
Arguments with_allocator {GraphT} o a.

(** A bridge, its host, a graph given by the host of each node, and a switch
    that answers every transaction with the same rows of the [sFlow] table. *)
Definition br0_uuid : string := "5a1c2e9e-7f0b-4c55-9a3e-0d6a52b1c001".

Definition br0 : Node :=
  {| Graph.ID := "br0";
     metadata := <["Type" := VString "ovsbridge"]> {["UUID" := VString br0_uuid]} |}.

Definition host0 : Node :=
  {| Graph.ID := "host0"; metadata := {["Type" := VString "host"]} |}.

Definition eth0 : Node :=
  {| Graph.ID := "eth0"; metadata := {["Type" := VString "device"]} |}.

Definition hosts_of (g : gmap string Node) (n : Node) (_ : Metadata) (_ : EdgePredicate)
  : list Node :=
  match g !! Graph.ID n with
  | Some h => [n; h]
  | None => []
  end.

Definition marshal_ids (nodes : list Node) : string :=
  String.concat "/" (Graph.ID <$> rev nodes).

Definition answers (rows : list SFlowRow)
  : list (list Operation) -> list Operation -> list OperationResult + error :=
  fun _ _ => inl [ {| Rows := rows |} ].

Definition probe_row : SFlowRow :=
  {| row_uuid := "c7a9f1d2-33b4-4d0e-8f6a-9b1e2c3d4e5f";
     external_ids := ExtMap {["probe-id" := probeID br0_uuid]} |}.

(** The row of the probe of another bridge. *)
Definition other_row : SFlowRow :=
  {| row_uuid := "0b5e7a41-92c3-4f18-b6d0-4a7c8e9f1a2b";
     external_ids := ExtMap {["probe-id" := probeID "77e1d3c4-0a9b-4f62-8d15-3c2b1a0f9e8d"]} |}.

Definition handler0 : OvsSFlowProbesHandler (gmap string Node) :=
  {| Graph := {["br0" := host0]}; ovsClient := [];
     allocator := Sflow.NewSFlowAgentAllocator |}.

(** The handler once the probe of [br0] is registered, on a switch that
    already has the probe's row. *)
Definition handler1 : OvsSFlowProbesHandler (gmap string Node) :=
  match RegisterProbe (gmap string Node) hosts_of marshal_ids Graph.ID
          (answers [probe_row]) Sflow.two_ports handler0 br0 with
  | Returns (_, o) => o
  | Panics _ => handler0
  end.

(** A handler whose allocator has both ports of [Sflow.two_ports] taken by
    other bridges, and a node typed as a bridge that carries no uuid. *)
Definition handler_full : OvsSFlowProbesHandler (gmap string Node) :=
  {| Graph := {["br0" := host0]}; ovsClient := [];
     allocator :=
       snd (Sflow.Alloc Sflow.two_ports "br-2" (new_probe "br-2" "host0/br2")
         (snd (Sflow.Alloc Sflow.two_ports "br-1" (new_probe "br-1" "host0/br1")
            Sflow.NewSFlowAgentAllocator))) |}.

Definition br_without_uuid : Node :=
  {| Graph.ID := "br0"; metadata := {["Type" := VString "ovsbridge"]} |}.

(** A switch that refuses every transaction. *)
Definition refuses (e : error)
  : list (list Operation) -> list Operation -> list OperationResult + error :=
  fun _ _ => inr e.

End OvsSFlow.

(** ** The probe handler with the probe-path cache (earlier revision of
    flow/probes/ovssflow.go) *)
Module OvsSFlowCache.

Import Graph.

(** [make(chan int64, 200)] *)
Definition chan_capacity : nat := 200.

(** A send on a buffered channel: it completes when the buffer has room and
    blocks the sender otherwise. *)
Inductive send (A : Type) : Type :=
  | Sent (buf : list A)
  | SendBlocks.
Arguments Sent {A} buf.
Arguments SendBlocks {A}.

Definition chan_send {A} (cap : nat) (buf : list A) (v : A) : send A :=
  if decide (length buf < cap)%nat then Sent (buf ++ [v]) else SendBlocks.

(** A receive takes the oldest element; [None] when the buffer is empty. *)
Definition chan_recv {A} (buf : list A) : option (A * list A) :=
  match buf with
  | [] => None
  | v :: rest => Some (v, rest)
  end.

Section Handler.

Variable GraphT : Type.
Variable LookupNodes : GraphT -> Metadata -> list Node.
Variable LookupShortestPath : GraphT -> Node -> Metadata -> EdgePredicate -> list Node.
Variable NodePath_Marshal : list Node -> string.

(** [cache] holds the entries of the [go-cache] instance that have not
    expired; [cacheUpdaterChan] is the buffer of the channel, oldest first. *)
Record OvsSFlowProbesHandler : Type := mkHandler {
  Graph : GraphT;
  cache : gmap string string;
  cacheUpdaterChan : list Z;
}.

Definition NewOvsSFlowProbesHandler (g : GraphT) : OvsSFlowProbesHandler :=
  {| Graph := g; cache := ∅; cacheUpdaterChan := [] |}.

Fixpoint first_probe_path (g : GraphT) (intfs : list Node) : string :=
  match intfs with
  | [] => ""
  | intf :: rest =>
      let nodes := LookupShortestPath g intf {["Type" := VString "ovsbridge"]} IsLayer2Edge in
      match last nodes with
      | None => first_probe_path g rest
      | Some bridge =>
          let nodes := LookupShortestPath g bridge {["Type" := VString "host"]} IsOwnershipEdge in
          if decide (length nodes = 0%nat) then first_probe_path g rest
          else NodePath_Marshal nodes
      end
  end.

Definition lookupForProbePath (o : OvsSFlowProbesHandler) (index : Z) : string :=
  let intfs := LookupNodes (Graph o) {["IfIndex" := VNum KInt64 index]} in
  first_probe_path (Graph o) intfs.

(** What a call of [GetProbePath] does: it returns a path, or it is
    suspended in [o.cacheUpdaterChan <- index]. *)
Inductive call : Type :=
  | Returned (path : string) (o : OvsSFlowProbesHandler)
  | BlockedOnSend (index : Z) (o : OvsSFlowProbesHandler).

Definition GetProbePath (o : OvsSFlowProbesHandler) (index : Z) : call :=
  match cache o !! FormatInt10 index with
  | Some path => Returned path o
  | None =>
      match chan_send chan_capacity (cacheUpdaterChan o) index with
      | Sent buf =>
          Returned "" {| Graph := Graph o; cache := cache o; cacheUpdaterChan := buf |}
      | SendBlocks => BlockedOnSend index o
      end
  end.

(** One turn of the loop of [cacheUpdater] that takes the receive branch. *)
Definition cacheUpdater_step (o : OvsSFlowProbesHandler) : option OvsSFlowProbesHandler :=
  match chan_recv (cacheUpdaterChan o) with
  | None => None
  | Some (index, rest) =>
      let path := lookupForProbePath o index in
      Some {| Graph := Graph o;
              cache := if decide (path ≠ "") then <[FormatInt10 index := path]> (cache o)
                       else cache o;
              cacheUpdaterChan := rest |}
  end.

(** [turns] turns of that loop, one after the other; the task waits when the
    channel is empty. *)
Fixpoint cacheUpdater (turns : nat) (o : OvsSFlowProbesHandler) : OvsSFlowProbesHandler :=
  match turns with
  | O => o
  | S k =>
      match cacheUpdater_step o with
      | Some o1 => cacheUpdater k o1
      | None => o
      end
  end.

(** A sender suspended in [GetProbePath] resumes once the buffer has room:
    the send completes and the call returns the empty path. *)
Definition resume (c : call) (o : OvsSFlowProbesHandler) : call :=
  match c with
  | Returned path _ => c
  | BlockedOnSend index _ =>
      match chan_send chan_capacity (cacheUpdaterChan o) index with
      | Sent buf =>
          Returned "" {| Graph := Graph o; cache := cache o; cacheUpdaterChan := buf |}
      | SendBlocks => BlockedOnSend index o
      end
  end.

End Handler.

Arguments Returned {GraphT} path o.
Arguments BlockedOnSend {GraphT} index o.
Arguments Graph {GraphT} o.
Arguments cache {GraphT} o.
Arguments cacheUpdaterChan {GraphT} o.

(** [o] with one more index in the channel's buffer. *)
Definition enqueued {GraphT} (o : OvsSFlowProbesHandler GraphT) (index : Z)
  : OvsSFlowProbesHandler GraphT :=
  {| Graph := Graph o; cache := cache o;
     cacheUpdaterChan := cacheUpdaterChan o ++ [index] |}.

(** A handler whose cache is empty and whose channel is full, over a graph
    in which no interface is known. *)
Definition full_handler : OvsSFlowProbesHandler unit :=
  {| Graph := tt; cache := ∅; cacheUpdaterChan := replicate chan_capacity 1 |}.

(** A graph, given by its answers, in which interface 7 is [eth0], plugged
    into [br0] on [host0]; and a handler over it with nothing cached and two
    requests waiting. *)
Definition if7_nodes : unit -> Metadata -> list Node :=
  fun _ m => if decide (m !! "IfIndex" = Some (VNum KInt64 7)) then [OvsSFlow.eth0] else [].
Definition if7_path : unit -> Node -> Metadata -> EdgePredicate -> list Node :=
  fun _ n _ e =>
    match e with
    | IsLayer2Edge => if decide (n = OvsSFlow.eth0) then [OvsSFlow.eth0; OvsSFlow.br0] else []
    | IsOwnershipEdge => if decide (n = OvsSFlow.br0) then [OvsSFlow.br0; OvsSFlow.host0] else []
    end.
Definition waiting_handler : OvsSFlowProbesHandler unit :=
  {| Graph := tt; cache := ∅; cacheUpdaterChan := [3; 7] |}.

Definition no_nodes : unit -> Metadata -> list Node := fun _ _ => [].
Definition no_path : unit -> Node -> Metadata -> EdgePredicate -> list Node :=
  fun _ _ _ _ => [].
Definition no_marshal : list Node -> string := fun _ => "".

End OvsSFlowCache.

(** ** github.com/nu7hatch/gouuid, the identifier library used by the alert
    engine: a [UUID] is an array of 16 bytes, printed as lower-case hex in
    groups of 4, 2, 2, 2 and 6 bytes, and parsed by a pattern that asks for a
    version digit between 1 and 5. *)
Module Gouuid.

Definition UUID : Type := list Byte.byte.

Global Instance byte_eq_dec : EqDecision Byte.byte := Byte.byte_eq_dec.
Global Program Instance byte_countable : Countable Byte.byte :=
  inj_countable Byte.to_N Byte.of_N _.
Next Obligation. intros b. apply Byte.of_to_N. Qed.

Definition hex_digit (n : N) : ascii :=
  match n with
  | 0 => "0" | 1 => "1" | 2 => "2" | 3 => "3" | 4 => "4" | 5 => "5"
  | 6 => "6" | 7 => "7" | 8 => "8" | 9 => "9" | 10 => "a" | 11 => "b"
  | 12 => "c" | 13 => "d" | 14 => "e" | _ => "f"
  end%N%char.

(** [fmt.Sprintf("%x", bytes)] *)
Definition hex_byte (b : Byte.byte) : list ascii :=
  [hex_digit (Byte.to_N b / 16); hex_digit (Byte.to_N b `mod` 16)].

Definition hex_bytes (bs : list Byte.byte) : list ascii :=
  concat (hex_byte <$> bs).

(** [fromHexChar] of [encoding/hex] *)
Definition hex_val (c : ascii) : option N :=
  let n := N_of_ascii c in
  if (48 <=? n)%N && (n <=? 57)%N then Some (n - 48)%N
  else if (97 <=? n)%N && (n <=? 102)%N then Some (n - 87)%N
  else if (65 <=? n)%N && (n <=? 70)%N then Some (n - 55)%N
  else None.

Definition upper_hex_digit (n : N) : ascii :=
  match n with
  | 0 => "0" | 1 => "1" | 2 => "2" | 3 => "3" | 4 => "4" | 5 => "5"
  | 6 => "6" | 7 => "7" | 8 => "8" | 9 => "9" | 10 => "A" | 11 => "B"
  | 12 => "C" | 13 => "D" | 14 => "E" | _ => "F"
  end%N%char.

(** [hex.ErrLength], and [hex.InvalidByteError], whose message prints the
    byte with [%#U]: [U+0067 'g'] for the letter g.  The bytes that reach it
    through [ParseHex] are the letters g to z. *)
Definition ErrLength : error := errors_New "encoding/hex: odd length hex string".

Definition InvalidByteError (c : ascii) : error :=
  errors_New ("encoding/hex: invalid byte: U+00"
              +:+ string_of_list_ascii [upper_hex_digit (N_of_ascii c / 16);
                                        upper_hex_digit (N_of_ascii c `mod` 16)]
              +:+ " '" +:+ string_of_list_ascii [c] +:+ "'").

(** The loop of [hex.Decode]: pair by pair, stopping at the first character
    that is no hexadecimal digit. *)
Fixpoint decode_pairs (cs : list ascii) : list Byte.byte + error :=
  match cs with
  | c1 :: c2 :: rest =>
      match hex_val c1 with
      | None => inr (InvalidByteError c1)
      | Some h =>
          match hex_val c2 with
          | None => inr (InvalidByteError c2)
          | Some l =>
              match decode_pairs rest with
              | inr e => inr e
              | inl bs => inl (default Byte.x00 (Byte.of_N (h * 16 + l)) :: bs)
              end
          end
      end
  | _ => inl []
  end.

(** [hex.DecodeString]; what [ParseHex] gives it has 32 characters. *)
Definition DecodeString (cs : list ascii) : list Byte.byte + error :=
  if Nat.odd (length cs) then inr ErrLength else decode_pairs cs.

Definition dash : ascii := "-"%char.

(** [UUID.String]: ["%x-%x-%x-%x-%x"] of [u[0:4]], [u[4:6]], [u[6:8]],
    [u[8:10]] and [u[10:]]. *)
Definition String_chars (u : UUID) : list ascii :=
  hex_bytes (take 4 u) ++ dash ::
  hex_bytes (take 2 (drop 4 u)) ++ dash ::
  hex_bytes (take 2 (drop 6 u)) ++ dash ::
  hex_bytes (take 2 (drop 8 u)) ++ dash ::
  hex_bytes (drop 10 u).

Definition String (u : UUID) : string := string_of_list_ascii (String_chars u).

(** The character classes of the pattern. *)
Definition in_range (lo hi : N) (c : ascii) : bool :=
  (lo <=? N_of_ascii c)%N && (N_of_ascii c <=? hi)%N.
Definition is_lower_alnum (c : ascii) : bool :=
  in_range 97 122 c || in_range 48 57 c.
Definition is_version (c : ascii) : bool := in_range 49 53 c.

(** [([a-z0-9]{n})]: exactly [n] characters of the class, then the rest. *)
Definition group (n : nat) (cs : list ascii) : option (list ascii * list ascii) :=
  if bool_decide (length (take n cs) = n) && forallb is_lower_alnum (take n cs)
  then Some (take n cs, drop n cs) else None.

Definition expect (c : ascii) (cs : list ascii) : option (list ascii) :=
  match cs with
  | c' :: rest => if Ascii.eqb c c' then Some rest else None
  | [] => None
  end.

(** An optional literal prefix. *)
Fixpoint strip_prefix (p cs : list ascii) : option (list ascii) :=
  match p, cs with
  | [], _ => Some cs
  | a :: p', c :: cs' => if Ascii.eqb a c then strip_prefix p' cs' else None
  | _ :: _, [] => None
  end.

Definition optional (p cs : list ascii) : list ascii :=
  default cs (strip_prefix p cs).

(** The five groups of
    [^(urn\:uuid\:)?\{?([a-z0-9]{8})-([a-z0-9]{4})-([1-5][a-z0-9]{3})-([a-z0-9]{4})-([a-z0-9]{12})\}?$],
    concatenated. *)
Definition match_pattern (cs : list ascii) : option (list ascii) :=
  let cs := optional (list_ascii_of_string "urn:uuid:") cs in
  let cs := optional ["{"%char] cs in
  match group 8 cs with
  | None => None
  | Some (g1, cs) =>
  match expect dash cs ≫= group 4 with
  | None => None
  | Some (g2, cs) =>
  match expect dash cs ≫= group 4 with
  | None => None
  | Some (g3, cs) =>
  if negb (forallb is_version (take 1 g3)) then None else
  match expect dash cs ≫= group 4 with
  | None => None
  | Some (g4, cs) =>
  match expect dash cs ≫= group 12 with
  | None => None
  | Some (g5, cs) =>
  match optional ["}"%char] cs with
  | [] => Some (g1 ++ g2 ++ g3 ++ g4 ++ g5)%list
  | _ :: _ => None
  end end end end end end.

(** The version digit of an identifier: the high half of its seventh byte.
    The identifiers the pattern accepts are those of versions 1 to 5. *)
Definition version (u : UUID) : N :=
  match u !! 6%nat with
  | Some b => (Byte.to_N b / 16)%N
  | None => 0%N
  end.

Definition valid (u : UUID) : Prop :=
  length u = 16%nat /\ (1 <= version u <= 5)%N.

(** [ParseHex] with the error it returns: the library's own when the
    pattern does not match, the one of [hex.DecodeString] when it matches
    and a group holds a letter after f. *)
Definition ParseHexE (s : string) : UUID + error :=
  match match_pattern (list_ascii_of_string s) with
  | None => inr (errors_New "Invalid UUID string")
  | Some hash => DecodeString hash
  end.

(** The identifier [ParseHex] returns; [None] when it returns an error. *)
Definition ParseHex (s : string) : option UUID :=
  match ParseHexE s with
  | inl u => Some u
  | inr _ => None
  end.

End Gouuid.

(** ** topology/graph/alert.go *)
Module Alert.

Import Graph.

(** [type UUID uuid.UUID] *)
Definition UUID : Type := Gouuid.UUID.

Definition UUID_String (id : UUID) : string := Gouuid.String id.

Definition quote : string := String.String "034"%char EmptyString.

(** [MarshalJSON]: the error it returns is always nil. *)
Definition MarshalJSON (id : UUID) : string := quote +:+ UUID_String id +:+ quote.

(** [UnmarshalJSON]: [data[1 : len(data)-1]] panics on fewer than two bytes;
    otherwise the result is the parsed identifier, or the parse error, in
    which case the receiver is left as it was. *)
Definition UnmarshalJSON (data : string) : outcome (UUID + error) :=
  if decide (String.length data < 2)%nat
  then Panics "slice bounds out of range"
  else
    match Gouuid.ParseHexE (substring 1 (String.length data - 2) data) with
    | inl uid => Returns (inl uid)
    | inr err => Returns (inr err)
    end.

Inductive AlertType : Type := FIXED | THRESHOLD.

(** [AlertTest], with the embedded [AlertTestParam] flattened; [UUID] is a
    pointer and may be nil, [Count] is a Go [int]. *)
Record AlertTest : Type := mkAlertTest {
  Name : string;
  Description : string;
  Select : string;
  Test : string;
  Action : string;
  UUID_ : option UUID;
  CreateTime : Z;
  Type_ : AlertType;
  Count : Z;
}.

Definition set_Count (al : AlertTest) (c : Z) : AlertTest :=
  {| Name := Name al; Description := Description al; Select := Select al;
     Test := Test al; Action := Action al; UUID_ := UUID_ al;
     CreateTime := CreateTime al; Type_ := Type_ al; Count := c |}.

Definition set_UUID (al : AlertTest) (id : option UUID) : AlertTest :=
  {| Name := Name al; Description := Description al; Select := Select al;
     Test := Test al; Action := Action al; UUID_ := id;
     CreateTime := CreateTime al; Type_ := Type_ al; Count := Count al |}.

(** What [json.Unmarshal] does with a text on its way into an [AlertTest],
    the identifier apart, which it leaves to [UUID.UnmarshalJSON]: the
    rule it fills in, the bytes of the member [UUID] it hands to that method
    when it reaches one (none when the member is absent or null, or when
    decoding stopped before it), and whether it reports an error of its
    own. *)
Record Decoded : Type := mkDecoded {
  dec_rule : AlertTest;
  dec_uuid : option string;
  dec_failed : bool;
}.

Record AlertMessage : Type := mkAlertMessage {
  msg_UUID : UUID;
  msg_Type : AlertType;
  msg_Timestamp : Z;
  msg_Count : Z;
  msg_Reason : string;
  msg_ReasonData : Node;
}.

(** The types of [go-eval] that [toTypeValue] selects. *)
Inductive EvalType : Type :=
  | BoolType | Uint8Type | Uint32Type | Uint64Type | Int64Type
  | Float64Type | StringType.

Global Instance EvalType_eq_dec : EqDecision EvalType.
Proof. solve_decision. Defined.

(** [toTypeValue]: [None] is the pair of nils returned, after an error is
    logged, for a type outside the switch. *)
Definition toTypeValue (val : Value) : option (EvalType * Value) :=
  match val with
  | VBool _ => Some (BoolType, val)
  | VNum KUint8 _ => Some (Uint8Type, val)
  | VNum KUint32 _ => Some (Uint32Type, val)
  | VNum KUint _ => Some (Uint64Type, val)
  | VNum KInt _ => Some (Int64Type, val)
  | VFloat64 _ => Some (Float64Type, val)
  | VString _ => Some (StringType, val)
  | _ => None
  end.

(** [path.Base] *)
Fixpoint strip_trailing_slashes (rev_path : list ascii) : list ascii :=
  match rev_path with
  | c :: rest => if Ascii.eqb c "/"%char then strip_trailing_slashes rest else rev_path
  | [] => []
  end.

Fixpoint until_slash (rev_path : list ascii) : list ascii :=
  match rev_path with
  | c :: rest => if Ascii.eqb c "/"%char then [] else c :: until_slash rest
  | [] => []
  end.

Definition path_Base (p : string) : string :=
  if decide (p = "") then "."
  else
    let r := strip_trailing_slashes (rev (list_ascii_of_string p)) in
    let b := string_of_list_ascii (rev (until_slash r)) in
    if decide (b = "") then "/" else b.

(** An event of the key-value store's watcher. *)
Record EtcdNode : Type := mkEtcdNode {
  Key : string;
  Value_ : string;
  Dir : bool;
}.

Record Response : Type := mkResponse {
  EvAction : string;
  EvNode : EtcdNode;
}.

Section Manager.

(** Collaborators outside these sources: the graph and its lookup by
    metadata key, [encoding/json] reading the text of an [AlertTest], the
    [go-eval] machine that compiles and runs an expression in a world of constants
    ([None] for a compile or run error, otherwise the printed result), and
    the listeners, which are only called. *)
Variable GraphT : Type.
Variable LookupNodesFromKey : GraphT -> string -> list Node.
Variable json_Unmarshal : string -> Decoded.
Variable eval_run : gmap string (option (EvalType * Value)) -> string -> option string.
Variable Listener : Type.

(** [eventListeners] is a Go map used as a set; it is kept as the list in
    which a [range] visits it. *)
Record AlertManager : Type := mkAlertManager {
  Graph : GraphT;
  alerts : gmap UUID AlertTest;
  eventListeners : list Listener;
}.

Definition with_alerts (a : AlertManager) (m : gmap UUID AlertTest) : AlertManager :=
  {| Graph := Graph a; alerts := m; eventListeners := eventListeners a |}.

(** One node of the inner loop of [EvalNodes], on the loop's copy [al] of the
    rule: the copy as it is after the node, and the messages built. *)
Definition eval_node (now : Z) (al : AlertTest) (n : Node)
  : outcome (AlertTest * list AlertMessage) :=
  let w := toTypeValue <$> metadata n in
  let toEval := "(" +:+ Test al +:+ ") == true" in
  match eval_run w toEval with
  | None => Returns (al, [])
  | Some ret =>
      if decide (ret = "true") then
        let al := set_Count al (wrap_int (Count al + 1)) in
        match UUID_ al with
        | None => Panics "invalid memory address or nil pointer dereference"
        | Some uid =>
            Returns (al, [ {| msg_UUID := uid; msg_Type := FIXED;
                              msg_Timestamp := now; msg_Count := Count al;
                              msg_Reason := Action al; msg_ReasonData := n |} ])
        end
      else Returns (al, [])
  end.

Fixpoint eval_nodes (now : Z) (al : AlertTest) (nodes : list Node)
  : outcome (AlertTest * list AlertMessage) :=
  match nodes with
  | [] => Returns (al, [])
  | n :: rest =>
      match eval_node now al n with
      | Panics why => Panics why
      | Returns (al1, msgs1) =>
          match eval_nodes now al1 rest with
          | Panics why => Panics why
          | Returns (al2, msgs2) => Returns (al2, (msgs1 ++ msgs2)%list)
          end
      end
  end.

(** The outer loop: [al] is a copy of the map's value, so what the inner loop
    does to it ends with the iteration. *)
Fixpoint eval_rules (now : Z) (g : GraphT) (rules : list AlertTest)
  : outcome (list AlertMessage) :=
  match rules with
  | [] => Returns []
  | al :: rest =>
      match eval_nodes now al (LookupNodesFromKey g (Select al)) with
      | Panics why => Panics why
      | Returns (_, msgs1) =>
          match eval_rules now g rest with
          | Panics why => Panics why
          | Returns msgs2 => Returns (msgs1 ++ msgs2)%list
          end
      end
  end.

(** [l.OnAlert(&msg)] for every listener, message by message. *)
Definition fan_out (ls : list Listener) (msgs : list AlertMessage)
  : list (Listener * AlertMessage) :=
  msg ← msgs; (λ l, (l, msg)) <$> ls.

(** [EvalNodes]: the manager after the call, the messages built and the
    calls made to the listeners. *)
Definition EvalNodes (now : Z) (a : AlertManager)
  : outcome (AlertManager * list AlertMessage * list (Listener * AlertMessage)) :=
  match eval_rules now (Graph a) (snd <$> map_to_list (alerts a)) with
  | Panics why => Panics why
  | Returns msgs => Returns (a, msgs, fan_out (eventListeners a) msgs)
  end.

Definition OnNodeUpdated (now : Z) (a : AlertManager) (n : Node) := EvalNodes now a.
Definition OnNodeAdded (now : Z) (a : AlertManager) (n : Node) := EvalNodes now a.

(** [a.alerts[*at.UUID] = *at] *)
Definition SetAlertTest (a : AlertManager) (at_ : AlertTest) : outcome AlertManager :=
  match UUID_ at_ with
  | None => Panics "invalid memory address or nil pointer dereference"
  | Some uid => Returns (with_alerts a (<[uid := at_]> (alerts a)))
  end.

Definition DeleteAlertTest (a : AlertManager) (id : UUID) : option error * AlertManager :=
  match alerts a !! id with
  | None => (Some (errors_New "Not found"), a)
  | Some _ => (None, with_alerts a (delete id (alerts a)))
  end.

Definition Get (a : AlertManager) (id : string) : option AlertTest :=
  Gouuid.ParseHex id ≫= λ uid, alerts a !! uid.

(** [alertTestFromData]: [json.Unmarshal] runs [UUID.UnmarshalJSON] on
    the member [UUID]; a panic of that method is not recovered, its error
    ends the decoding.  [Returns None] stands for the returned error. *)
Definition alertTestFromData (data : string) : outcome (option AlertTest) :=
  let d := json_Unmarshal data in
  match dec_uuid d with
  | None =>
      Returns (if dec_failed d then None else Some (set_UUID (dec_rule d) None))
  | Some raw =>
      match UnmarshalJSON raw with
      | Panics why => Panics why
      | Returns (inr _) => Returns None
      | Returns (inl uid) =>
          Returns (if dec_failed d then None
                   else Some (set_UUID (dec_rule d) (Some uid)))
      end
  end.

(** [AddEventListener] and [DelEventListener]: the map is keyed by the
    listener, so adding one that is there changes nothing. *)
Definition AddEventListener `{EqDecision Listener} (a : AlertManager) (l : Listener)
  : AlertManager :=
  {| Graph := Graph a; alerts := alerts a;
     eventListeners := if decide (l ∈ eventListeners a) then eventListeners a
                       else eventListeners a ++ [l] |}.

Definition DelEventListener `{EqDecision Listener} (a : AlertManager) (l : Listener)
  : AlertManager :=
  {| Graph := Graph a; alerts := alerts a;
     eventListeners := List.filter (fun l' => bool_decide (l' ≠ l)) (eventListeners a) |}.

(** Every rule is stored under its own identifier. *)
Definition well_keyed (a : AlertManager) : Prop :=
  forall k at_, alerts a !! k = Some at_ -> UUID_ at_ = Some k.

(** What one turn of the watcher's loop leaves: the loop goes on, the task
    returns (the watcher reported an error), or the task panics. *)
Inductive watch : Type :=
  | Continue (a : AlertManager)
  | Return_
  | Panic (why : string).

Definition is_upsert (action : string) : bool :=
  bool_decide (action = "create") || bool_decide (action = "set")
  || bool_decide (action = "update").
Definition is_removal (action : string) : bool :=
  bool_decide (action = "expire") || bool_decide (action = "delete").

Definition watcher_turn (a : AlertManager) (next : Response + error) : watch :=
  match next with
  | inr _ => Return_
  | inl resp =>
      if Dir (EvNode resp) then Continue a
      else if is_upsert (EvAction resp) then
        match alertTestFromData (Value_ (EvNode resp)) with
        | Panics why => Panic why
        | Returns None => Continue a
        | Returns (Some at_) =>
            match SetAlertTest a at_ with
            | Returns a' => Continue a'
            | Panics why => Panic why
            end
        end
      else if is_removal (EvAction resp) then
        let id := path_Base (Key (EvNode resp)) in
        match Gouuid.ParseHex id with
        | Some uid => Continue (snd (DeleteAlertTest a uid))
        | None => Continue a
        end
      else Continue a
  end.

(** The watcher task over the events the store delivers. *)
Fixpoint watcher (a : AlertManager) (events : list (Response + error)) : watch :=
  match events with
  | [] => Continue a
  | ev :: rest =>
      match watcher_turn a ev with
      | Continue a' => watcher a' rest
      | w => w
      end
  end.

End Manager.

(** The events the watcher's switch has a case for, on nodes that are no
    directories, and the errors of the store's watcher. *)
Definition acted_on (ev : Response + error) : bool :=
  match ev with
  | inl resp =>
      negb (Dir (EvNode resp))
      && bool_decide (EvAction resp ∈ ["create"; "set"; "update"; "expire"; "delete"])
  | inr _ => true
  end.

(** [etcdPath] *)
Definition etcdPath (id : UUID) : string := "/alert/" +:+ UUID_String id.

(** The requests [Create] and [Delete] send to the key-value store. *)
Inductive EtcdRequest : Type :=
  | EtcdSet (key value : string)
  | EtcdDelete (key : string).

Section Api.

(** Outside these sources: the identifier [uuid.NewV4] draws (or its error),
    [json.Marshal] on a rule, and the store, which answers a request, given
    the requests before it, with an error or none. *)
Variable uuid_NewV4 : UUID + error.
Variable json_Marshal : AlertTest -> string + error.
Variable etcd_respond : list EtcdRequest -> EtcdRequest -> option error.

(** [Create]: the fields it assigns are assigned in the caller's rule, which
    is returned beside the error; [sent] are the requests sent so far. *)
Definition Create (now : Z) (at_ : AlertTest) (sent : list EtcdRequest)
  : (option error * AlertTest) * list EtcdRequest :=
  match uuid_NewV4 with
  | inr err => ((Some err, at_), sent)
  | inl uid =>
      let at_ :=
        {| Name := Name at_; Description := Description at_; Select := Select at_;
           Test := Test at_; Action := Action at_; UUID_ := Some uid;
           CreateTime := now; Type_ := FIXED; Count := 0 |} in
      match json_Marshal at_ with
      | inr err => ((Some err, at_), sent)
      | inl data =>
          let req := EtcdSet (etcdPath uid) data in
          ((etcd_respond sent req, at_), sent ++ [req])
      end
  end.

(** [Delete] *)
Definition Delete (id : string) (sent : list EtcdRequest)
  : option error * list EtcdRequest :=
  match Gouuid.ParseHexE id with
  | inr err => (Some err, sent)
  | inl uid =>
      let req := EtcdDelete (etcdPath uid) in
      (etcd_respond sent req, sent ++ [req])
  end.

End Api.

Arguments Graph {GraphT Listener} a.
Arguments alerts {GraphT Listener} a.
Arguments eventListeners {GraphT Listener} a.
Arguments with_alerts {GraphT Listener} a m.
Arguments Continue {GraphT Listener} a.
Arguments Return_ {GraphT Listener}.
Arguments Panic {GraphT Listener} why.

(** Modelled from the spec: [Graph.LookupNodesFromKey], whose source file is
    not among these sources; the candidates of a rule are the nodes whose
    metadata has the key named by the select expression.  The graph is the
    list of its nodes. *)
Definition nodes_with_key (g : list Node) (key : string) : list Node :=
  List.filter (fun n => bool_decide (is_Some (metadata n !! key))) g.

(** A rule that fires on hosts, its identifier and its place in the store. *)
Definition rule_uuid : UUID :=
  [Byte.x3f; Byte.x2a; Byte.x90; Byte.x11; Byte.x7c; Byte.x5d; Byte.x4e; Byte.x8b;
   Byte.xa1; Byte.x02; Byte.x6d; Byte.x9e; Byte.x10; Byte.xc4; Byte.x55; Byte.xf0].

Definition host_test : string := "Type == " +:+ quote +:+ "host" +:+ quote.

Definition host_rule : AlertTest :=
  {| Name := "hosts"; Description := "a host appeared"; Select := "Type";
     Test := host_test; Action := "notify"; UUID_ := Some rule_uuid;
     CreateTime := 0; Type_ := FIXED; Count := 0 |}.

Definition rule_key : string := "/alert/" +:+ UUID_String rule_uuid.

(** The rule with no identifier, as decoded from a value that has none. *)
Definition anonymous_rule : AlertTest :=
  {| Name := ""; Description := ""; Select := ""; Test := ""; Action := "";
     UUID_ := None; CreateTime := 0; Type_ := FIXED; Count := 0 |}.

(** A decoder that knows one text, in which the member [UUID] is what
    [MarshalJSON] prints for the rule's identifier, and fails on every
    other; one that finds the given bytes in the member [UUID] of every
    text; and the evaluation of the one expression [host_test] is compiled
    to. *)
Definition decode_only (text : string) (rule : AlertTest) : string -> Decoded :=
  fun data =>
    if decide (data = text)
    then {| dec_rule := rule; dec_uuid := MarshalJSON <$> UUID_ rule;
            dec_failed := false |}
    else {| dec_rule := anonymous_rule; dec_uuid := None; dec_failed := true |}.

Definition decode_uuid_bytes (raw : string) : string -> Decoded :=
  fun _ => {| dec_rule := anonymous_rule; dec_uuid := Some raw; dec_failed := false |}.

Definition eval_host_test (w : gmap string (option (EvalType * Value))) (expr : string)
  : option string :=
  if decide (expr = "(" +:+ host_test +:+ ") == true") then
    Some (if decide (w !! "Type" = Some (Some (StringType, VString "host")))
          then "true" else "false")
  else None.

Definition h1 : Node :=
  {| ID := "n1"; metadata := <["Type" := VString "host"]> {["Name" := VString "h1"]} |}.
Definition h2 : Node :=
  {| ID := "n2"; metadata := <["Type" := VString "host"]> {["Name" := VString "h1"]} |}.

Definition manager0 (g : list Node) : AlertManager (list Node) string :=
  {| Graph := g; alerts := {[rule_uuid := host_rule]}; eventListeners := ["ws"] |}.

(** The message [host_rule] sends about node [n] with count [c]. *)
Definition host_msg (now : Z) (n : Node) (c : Z) : AlertMessage :=
  {| msg_UUID := rule_uuid; msg_Type := FIXED; msg_Timestamp := now;
     msg_Count := c; msg_Reason := "notify"; msg_ReasonData := n |}.

(** Events of the store about the key of [host_rule]. *)
Definition event (action value : string) (dir : bool) : Response :=
  {| EvAction := action;
     EvNode := {| Key := rule_key; Value_ := value; Dir := dir |} |}.

Global Instance AlertType_eq_dec : EqDecision AlertType.
Proof. solve_decision. Defined.
Global Instance AlertTest_eq_dec : EqDecision AlertTest.
Proof. solve_decision. Defined.

(** A store that accepts every request, and an encoder that knows one
    rule. *)
Definition accepts : list EtcdRequest -> EtcdRequest -> option error := fun _ _ => None.
Definition encode_only (rule : AlertTest) (text : string) : AlertTest -> string + error :=
  fun at_ => if decide (at_ = rule) then inl text
             else inr (errors_New "json: unsupported value").

End Alert.

(** * Properties *)

(** ** The agent allocator *)
Module SflowProps.

Import Sflow.

Section WithPathSetter.

Context {PathSetter : Type}.
Implicit Types (m : gmap Z (SFlowAgent PathSetter)) (a : SFlowAgentAllocator PathSetter).
Implicit Types (s : SFlowAgent PathSetter) (c : Config).

Local Ltac int_lia := unfold in_int, int_min, int_max in *; lia.

Lemma wrap_int_id z : in_int z -> wrap_int z = z.
Proof.
  unfold wrap_int. intros H. rewrite Z.mod_small; int_lia.
Qed.

Lemma iterations_valid lo hi :
  int_min <= lo -> lo <= hi -> hi < int_max ->
  iterations lo hi = Z.to_nat (hi + 1 - lo).
Proof.
  unfold iterations. intros H1 H2 H3.
  rewrite wrap_int_id by int_lia.
  rewrite Z.mod_small; [done | int_lia].
Qed.

(** The scan visits [i], [i+1], ... in order and stops at the first free
    port. *)
Lemma scan_ports_Some m n i port :
  int_min <= i -> i + Z.of_nat n <= int_max + 1 ->
  scan_ports m n i = Some port ->
  i <= port < i + Z.of_nat n ∧ m !! port = None ∧
  ∀ q, i <= q < port -> is_Some (m !! q).
Proof.
  revert i. induction n as [|n IH]; intros i Hlo Hhi; simpl; [done|].
  destruct (m !! i) as [s|] eqn:Hi.
  - destruct (decide (n = 0%nat)) as [->|]; [done|].
    rewrite wrap_int_id by int_lia.
    intros Hs. apply IH in Hs as (Hr & Hfree & Hbelow); [|int_lia..].
    split; [lia|]. split; [done|].
    intros q Hq. destruct (decide (q = i)) as [->|]; [by eexists|].
    apply Hbelow. lia.
  - intros [= <-]. split; [lia|]. split; [done | intros q ?; lia].
Qed.

Lemma scan_ports_None m n i :
  int_min <= i -> i + Z.of_nat n <= int_max + 1 ->
  scan_ports m n i = None ->
  ∀ q, i <= q < i + Z.of_nat n -> is_Some (m !! q).
Proof.
  revert i. induction n as [|n IH]; intros i Hlo Hhi; simpl; [intros _ q ?; lia|].
  destruct (m !! i) as [s|] eqn:Hi; [|done].
  intros Hs q Hq. destruct (decide (q = i)) as [->|]; [by eexists|].
  destruct (decide (n = 0%nat)) as [->|]; [lia|].
  rewrite wrap_int_id in Hs by int_lia.
  apply (IH (i + 1)); [int_lia.. | done | lia].
Qed.

(** The lookup by uuid finds an agent exactly when the map holds one. *)
Lemma find_agent_Some uuid m s :
  find_agent uuid m = Some s -> ∃ port, m !! port = Some s ∧ UUID s = uuid.
Proof.
  unfold find_agent. intros H.
  destruct (List.find _ _) as [[port s']|] eqn:Hf; simplify_eq/=.
  apply find_some in Hf as [Hin Hu].
  apply bool_decide_eq_true in Hu. simpl in Hu.
  exists port. split; [|done].
  apply elem_of_map_to_list. by apply list_elem_of_In.
Qed.

Lemma find_agent_None uuid m :
  find_agent uuid m = None <-> ∀ port s, m !! port = Some s -> UUID s ≠ uuid.
Proof.
  unfold find_agent. split.
  - intros H port s Hs Hu.
    destruct (List.find _ _) as [x|] eqn:Hf; [done|].
    assert (In (port, s) (map_to_list m)) as Hin
      by (apply list_elem_of_In; by apply elem_of_map_to_list).
    apply (find_none _ _ Hf) in Hin. simpl in Hin.
    by apply bool_decide_eq_false in Hin.
  - intros H. destruct (List.find _ _) as [[port s]|] eqn:Hf; [|done].
    apply find_some in Hf as [Hin Hu].
    apply bool_decide_eq_true in Hu. simpl in Hu.
    apply list_elem_of_In, elem_of_map_to_list in Hin.
    by destruct (H port s Hin).
Qed.

(** When the uuids in the map are pairwise distinct the order in which the
    [range] visits the map does not matter. *)
Lemma find_agent_unique uuid m port s :
  (∀ p q s t, m !! p = Some s -> m !! q = Some t -> UUID s = UUID t -> p = q) ->
  m !! port = Some s -> UUID s = uuid -> find_agent uuid m = Some s.
Proof.
  intros Huniq Hs Hu.
  destruct (find_agent uuid m) as [t|] eqn:Hf.
  - apply find_agent_Some in Hf as (q & Ht & Hu').
    assert (port = q) as -> by (eapply Huniq; eauto; congruence).
    congruence.
  - rewrite find_agent_None in Hf. by destruct (Hf port s Hs).
Qed.

Lemma scan_valid_Some c m port :
  valid_range c ->
  scan_ports m (iterations (min_of c) (max_of c)) (min_of c) = Some port ->
  min_of c <= port <= max_of c ∧ m !! port = None ∧
  ∀ q, min_of c <= q < port -> is_Some (m !! q).
Proof.
  intros (H1 & H2 & H3). rewrite iterations_valid by done.
  intros Hs. apply scan_ports_Some in Hs as (? & ? & ?); [|done|int_lia].
  split; [lia | done].
Qed.

Lemma scan_valid_None c m :
  valid_range c ->
  scan_ports m (iterations (min_of c) (max_of c)) (min_of c) = None ->
  ∀ q, min_of c <= q <= max_of c -> is_Some (m !! q).
Proof.
  intros (H1 & H2 & H3). rewrite iterations_valid by done.
  intros Hs q Hq. eapply scan_ports_None; [| |exact Hs|]; [done|int_lia|lia].
Qed.

(** [Alloc] on a uuid that has no agent yet: the lowest free port of the
    range is taken. *)
Lemma Alloc_free c uuid p a port :
  valid_range c ->
  find_agent uuid (allocated a) = None ->
  min_of c <= port <= max_of c ->
  allocated a !! port = None ->
  (∀ q, min_of c <= q < port -> is_Some (allocated a !! q)) ->
  Alloc c uuid p a =
    ((Some (fresh_agent c uuid port p), None),
     {| allocated := <[port := fresh_agent c uuid port p]> (allocated a);
        spawned := spawned a ++ [port] |}).
Proof.
  intros Hc Hf Hr Hfree Hbelow. unfold Alloc. rewrite Hf.
  destruct (scan_ports _ _ _) as [i|] eqn:Hs.
  - apply scan_valid_Some in Hs as (Hi & Hifree & Hibelow); [|done].
    assert (i = port) as ->; [|done].
    destruct (Z.lt_trichotomy i port) as [Hlt|[?|Hgt]]; [|done|].
    + destruct (Hbelow i) as [? ?]; [lia|congruence].
    + destruct (Hibelow port) as [? ?]; [lia|congruence].
  - destruct (scan_valid_None _ _ Hc Hs port Hr). congruence.
Qed.

(** ... and when the range is full the error is returned and nothing
    changes. *)
Lemma Alloc_full c uuid p a :
  valid_range c ->
  find_agent uuid (allocated a) = None ->
  (∀ q, min_of c <= q <= max_of c -> is_Some (allocated a !! q)) ->
  Alloc c uuid p a = ((None, Some port_exhausted), a).
Proof.
  intros Hc Hf Hfull. unfold Alloc. rewrite Hf.
  destruct (scan_ports _ _ _) as [i|] eqn:Hs; [|done].
  apply scan_valid_Some in Hs as (Hi & Hifree & _); [|done].
  destruct (Hfull i Hi). congruence.
Qed.

Lemma find_agent_empty uuid : find_agent (PathSetter:=PathSetter) uuid ∅ = None.
Proof. apply find_agent_None. intros port s. by rewrite lookup_empty. Qed.

(** C2. [Alloc] takes the lowest free port of the configured range for a
    uuid that has no agent, and returns the error "sflow port exhausted",
    changing nothing, when every port of the range is taken.  With a range of
    two ports, three allocations of distinct uuids get the lower port, the
    upper port and the error; once the first uuid is released a fourth uuid
    gets the lower port again. *)
Theorem Alloc_first_fit c (Hc : valid_range c) :
  (∀ uuid p a,
     find_agent uuid (allocated a) = None ->
     (∀ port,
        min_of c <= port <= max_of c ->
        allocated a !! port = None ->
        (∀ q, min_of c <= q < port -> is_Some (allocated a !! q)) ->
        Alloc c uuid p a =
          ((Some (fresh_agent c uuid port p), None),
           {| allocated := <[port := fresh_agent c uuid port p]> (allocated a);
              spawned := spawned a ++ [port] |}))
     ∧ ((∀ q, min_of c <= q <= max_of c -> is_Some (allocated a !! q)) ->
        Alloc c uuid p a = ((None, Some port_exhausted), a)))
  ∧ (∀ u1 u2 u3 u4 p1 p2 p3 p4,
       max_of c = min_of c + 1 ->
       NoDup [u1; u2; u3; u4] ->
       ∃ s1 s2 s4 a1 a2 a4,
         Alloc c u1 p1 NewSFlowAgentAllocator = ((Some s1, None), a1)
         ∧ Port s1 = min_of c
         ∧ Alloc c u2 p2 a1 = ((Some s2, None), a2)
         ∧ Port s2 = max_of c
         ∧ Alloc c u3 p3 a2 = ((None, Some port_exhausted), a2)
         ∧ Alloc c u4 p4 (Release u1 a2) = ((Some s4, None), a4)
         ∧ Port s4 = min_of c).
Proof.
  split.
  { intros uuid p a Hf. split.
    - intros port. by apply Alloc_free.
    - by apply Alloc_full. }
  intros u1 u2 u3 u4 p1 p2 p3 p4 Hmax Hnd.
  apply NoDup_cons in Hnd as [Hu1 Hnd]. apply NoDup_cons in Hnd as [Hu2 Hnd].
  apply NoDup_cons in Hnd as [Hu3 _].
  assert (H12 : u1 ≠ u2) by (intros ->; apply Hu1; set_solver).
  assert (H13 : u1 ≠ u3) by (intros ->; apply Hu1; set_solver).
  assert (H14 : u1 ≠ u4) by (intros ->; apply Hu1; set_solver).
  assert (H23 : u2 ≠ u3) by (intros ->; apply Hu2; set_solver).
  assert (H24 : u2 ≠ u4) by (intros ->; apply Hu2; set_solver).
  set (lo := min_of c) in *.
  set (s1 := fresh_agent c u1 lo p1).
  set (s2 := fresh_agent c u2 (lo + 1) p2).
  set (s4 := fresh_agent c u4 lo p4).
  set (m1 := <[lo := s1]> (∅ : gmap Z (SFlowAgent PathSetter))).
  set (m2 := <[lo + 1 := s2]> m1).
  assert (Hr : lo <= lo <= max_of c) by lia.
  assert (Hm2 : ∀ port s, m2 !! port = Some s ->
                (port = lo ∧ s = s1) ∨ (port = lo + 1 ∧ s = s2)).
  { intros port s. unfold m2, m1.
    rewrite !lookup_insert, lookup_empty.
    repeat case_decide; intros; simplify_eq; auto. }
  eexists s1, s2, s4, _, _, _. split_and!.
  - apply Alloc_free; [done | apply find_agent_empty | done | apply lookup_empty |].
    intros q ?; lia.
  - done.
  - apply Alloc_free; simpl; [done | | lia | |].
    + apply find_agent_None. intros port s. fold m1. unfold m1.
      rewrite lookup_insert, lookup_empty. case_decide; [|done].
      by intros [= <-].
    + rewrite lookup_insert_ne by lia. apply lookup_empty.
    + intros q ?. assert (q = lo) as -> by lia. rewrite lookup_insert_eq. by eexists.
  - simpl. lia.
  - apply Alloc_full; simpl; [done | |].
    + apply find_agent_None. intros port s Hs.
      destruct (Hm2 port s Hs) as [[_ ->]|[_ ->]]; simpl; congruence.
    + intros q ?. fold m1 m2. unfold m2, m1.
      destruct (decide (q = lo)) as [->|].
      * rewrite lookup_insert_ne by lia. rewrite lookup_insert_eq. by eexists.
      * assert (q = lo + 1) as -> by lia. rewrite lookup_insert_eq. by eexists.
  - apply Alloc_free; simpl; [done | | done | |].
    + apply find_agent_None. intros port s.
      rewrite map_lookup_filter_Some. intros [Hs Hne]. simpl in Hne. fold m1 m2 in Hs.
      destruct (Hm2 port s Hs) as [[_ ->]|[_ ->]]; simpl in *; congruence.
    + apply map_lookup_filter_None. right. intros s. fold m1 m2. unfold m2, m1.
      rewrite lookup_insert_ne by lia. rewrite lookup_insert_eq.
      intros [= <-]. simpl. intros Hne. by apply Hne.
    + intros q ?; lia.
  - done.
Qed.

Lemma alloc_inv_Alloc c uuid p a :
  valid_range c -> alloc_inv c a -> alloc_inv c (snd (Alloc c uuid p a)).
Proof.
  intros Hc [Hport Huniq]. unfold Alloc.
  destruct (find_agent _ _) as [s|] eqn:Hf; [done|].
  destruct (scan_ports _ _ _) as [i|] eqn:Hs; [|done].
  apply scan_valid_Some in Hs as (Hi & Hfree & _); [|done].
  rewrite find_agent_None in Hf.
  split; simpl.
  - intros port s. rewrite lookup_insert. case_decide; [|by apply Hport].
    intros [= <-]. by subst.
  - intros q1 q2 s t. rewrite !lookup_insert.
    repeat case_decide; subst; intros; simplify_eq/=; try done.
    + by edestruct Hf.
    + by edestruct Hf.
    + by eapply Huniq.
Qed.

Lemma alloc_inv_Release c uuid a : alloc_inv c a -> alloc_inv c (Release uuid a).
Proof.
  intros [Hport Huniq]. split; simpl.
  - intros port s [Hs _]%map_lookup_filter_Some. by apply Hport.
  - intros q1 q2 s t [Hs _]%map_lookup_filter_Some [Ht _]%map_lookup_filter_Some.
    by eapply Huniq.
Qed.

Lemma reachable_inv c a : valid_range c -> reachable c a -> alloc_inv c a.
Proof.
  intros Hc. induction 1.
  - split; intros *; simpl; by rewrite lookup_empty.
  - by apply alloc_inv_Alloc.
  - by apply alloc_inv_Release.
  - split; intros *; simpl; by rewrite lookup_empty.
Qed.

(** C8. In every allocator built by the operations under one configuration
    with a proper range: two entries with the same uuid are the same entry;
    [Alloc] on a uuid that has an agent returns that agent with
    [AgentAlreadyAllocated] and changes nothing; the ports of distinct
    entries differ; and every port lies in the configured range. *)
Theorem allocator_invariant c a (Hc : valid_range c) (Hr : reachable c a) :
  (∀ p q s t, allocated a !! p = Some s -> allocated a !! q = Some t ->
     UUID s = UUID t -> p = q ∧ s = t)
  ∧ (∀ uuid p port s, allocated a !! port = Some s -> UUID s = uuid ->
       Alloc c uuid p a = ((Some s, Some AgentAlreadyAllocated), a))
  ∧ (∀ p q s t, allocated a !! p = Some s -> allocated a !! q = Some t ->
       p ≠ q -> Port s ≠ Port t)
  ∧ (∀ p s, allocated a !! p = Some s -> min_of c <= Port s <= max_of c).
Proof.
  destruct (reachable_inv c a Hc Hr) as [Hport Huniq]. split_and!.
  - intros p q s t Hs Ht Hu. assert (p = q) as -> by by eapply Huniq.
    split; [done | congruence].
  - intros uuid p port s Hs Hu. unfold Alloc.
    by rewrite (find_agent_unique uuid _ port s Huniq Hs Hu).
  - intros p q s t Hs Ht Hne.
    destruct (Hport p s Hs) as [-> _], (Hport q t Ht) as [-> _]. done.
  - intros p s Hs. destruct (Hport p s Hs) as [-> ?]. done.
Qed.

(** C3 (as amended). A failure to bind stays inside the background task:
    [start] returns the error and leaves the agent as it was, the running
    flag included, while [Alloc], whose [Start] only spawned that task, has
    already returned the agent with a nil error and keeps it allocated. *)
Theorem bind_failure_stays_in_task ListenUDP c uuid p a s a' err
    (Halloc : Alloc c uuid p a = ((Some s, None), a'))
    (Hbind : ListenUDP (Addr s) (Port s) = Some err) :
  start ListenUDP s = (s, Some err)
  ∧ allocated a' !! Port s = Some s
  ∧ spawned a' = Start s (spawned a)
  ∧ running s = None.
Proof.
  unfold Alloc in Halloc.
  destruct (find_agent _ _); [done|].
  destruct (scan_ports _ _ _) as [i|]; [|done].
  injection Halloc as <- <-. simpl in *.
  unfold start. simpl. rewrite Hbind.
  split_and!; [done | by rewrite lookup_insert_eq | done | done].
Qed.

End WithPathSetter.

Lemma valid_two_ports : valid_range two_ports.
Proof. unfold valid_range, min_of, max_of, int_min, int_max. simpl. lia. Defined.

Lemma Alloc_first_fit_witness :
  valid_range two_ports
  ∧ ∃ s1 s2 s4 a1 a2 a4,
      Alloc two_ports "br-1" tt NewSFlowAgentAllocator = ((Some s1, None), a1)
      ∧ Port s1 = 6345
      ∧ Alloc two_ports "br-2" tt a1 = ((Some s2, None), a2)
      ∧ Port s2 = 6346
      ∧ Alloc two_ports "br-3" tt a2 = ((None, Some port_exhausted), a2)
      ∧ Alloc two_ports "br-4" tt (Release "br-1" a2) = ((Some s4, None), a4)
      ∧ Port s4 = 6345.
Proof.
  split; [exact valid_two_ports|].
  apply (proj2 (Alloc_first_fit two_ports valid_two_ports)); [reflexivity|].
  apply (bool_decide_unpack _). vm_compute. exact I.
Defined.

Lemma allocator_invariant_witness :
  let a := snd (Alloc two_ports "br-1" tt NewSFlowAgentAllocator) in
  valid_range two_ports ∧ reachable two_ports a
  ∧ (∀ p s, allocated a !! p = Some s -> 6345 <= Port s <= 6346)
  ∧ Alloc two_ports "br-1" tt a =
      ((Some (fresh_agent two_ports "br-1" 6345 tt), Some AgentAlreadyAllocated), a).
Proof.
  intros a.
  assert (Hr : reachable two_ports a) by (apply reach_Alloc, reach_new).
  destruct (allocator_invariant two_ports a valid_two_ports Hr) as (_ & Hsame & _ & Hrange).
  split; [exact valid_two_ports|]. split; [exact Hr|]. split; [exact Hrange|].
  apply (Hsame "br-1" tt 6345); reflexivity.
Defined.

Lemma bind_failure_stays_in_task_witness :
  let s := fresh_agent two_ports "br-1" 6345 tt in
  start no_bind s = (s, Some address_in_use)
  ∧ allocated (snd (Alloc two_ports "br-1" tt NewSFlowAgentAllocator)) !! 6345 = Some s.
Proof.
  intros s.
  destruct (bind_failure_stays_in_task no_bind two_ports "br-1" tt
              NewSFlowAgentAllocator s
              (snd (Alloc two_ports "br-1" tt NewSFlowAgentAllocator))
              address_in_use) as (Hstart & Hkept & _ & _);
    [reflexivity | reflexivity |].
  split; [exact Hstart | exact Hkept].
Defined.

(** C3, as stated, fails: every bind fails, and yet [Alloc], the caller of
    [Start], receives the agent with a nil error and keeps it allocated; the
    error exists only as the result of the spawned task, which the [go]
    statement drops. *)
Lemma bind_failure_not_returned :
  ∃ s a1,
    Alloc two_ports "br-1" tt NewSFlowAgentAllocator = ((Some s, None), a1)
    ∧ spawned a1 = [Port s]
    ∧ start no_bind s = (s, Some address_in_use)
    ∧ allocated a1 !! Port s = Some s.
Proof. by eexists _, _. Qed.

End SflowProps.

(** ** The OVS sFlow probe handler *)
Module OvsSFlowProps.

Import Graph OvsSFlow.

Section Handler.

Variable GraphT : Type.
Variable LookupShortestPath : GraphT -> Node -> Metadata -> EdgePredicate -> list Node.
Variable NodePath_Marshal : list Node -> string.
Variable Sprint_node : Node -> string.
Variable ovs_respond :
  list (list Operation) -> list Operation -> list OperationResult + error.
Variable cfg : Sflow.Config.

Abbreviation RegisterProbe :=
  (RegisterProbe GraphT LookupShortestPath NodePath_Marshal Sprint_node ovs_respond cfg).
Abbreviation UnregisterProbe := (UnregisterProbe GraphT ovs_respond).
Abbreviation Handler := (OvsSFlowProbesHandler GraphT).

Implicit Types (o : Handler) (n : Node) (row : SFlowRow).

Lemma isOvsBridge_true n :
  isOvsBridge n = true <->
  metadata n !! "UUID" ≠ Some (VString "")
  ∧ metadata n !! "Type" = Some (VString "ovsbridge").
Proof.
  unfold isOvsBridge, eq_string.
  rewrite andb_true_iff, negb_true_iff, bool_decide_eq_false, bool_decide_eq_true.
  done.
Qed.

Lemma isOvsBridge_false n :
  isOvsBridge n = false <->
  metadata n !! "Type" ≠ Some (VString "ovsbridge")
  ∨ metadata n !! "UUID" = Some (VString "").
Proof.
  rewrite <-not_true_iff_false, isOvsBridge_true.
  destruct (decide (metadata n !! "UUID" = Some (VString "")));
    destruct (decide (metadata n !! "Type" = Some (VString "ovsbridge")));
    tauto.
Qed.

Lemma compareProbeID_tagged row id : compareProbeID row id = true <-> tagged row id.
Proof.
  unfold compareProbeID, tagged. split.
  - destruct (external_ids row) as [| |m]; try done.
    destruct (m !! "probe-id") as [v|] eqn:Hv; [|done].
    intros ->%bool_decide_eq_true. by exists m.
  - intros (m & -> & ->). by apply bool_decide_eq_true.
Qed.

(** C10. On a node that is not an OVS bridge, that is, whose [Type] is not
    the string "ovsbridge" or whose [UUID] is the empty string,
    [RegisterProbe] and [UnregisterProbe] return nil and leave the handler
    as it was: no agent allocated or released, no transaction sent. *)
Theorem not_a_bridge_is_left_alone o n
    (Hn : metadata n !! "Type" ≠ Some (VString "ovsbridge")
          ∨ metadata n !! "UUID" = Some (VString "")) :
  RegisterProbe o n = Returns (None, o)
  ∧ UnregisterProbe o n = Returns (None, o).
Proof.
  apply isOvsBridge_false in Hn.
  unfold OvsSFlow.RegisterProbe, OvsSFlow.UnregisterProbe. by rewrite Hn.
Qed.

Lemma first_tagged_Some id result row :
  first_tagged id result = Some row ->
  row ∈ concat (Rows <$> result) ∧ tagged row id.
Proof.
  unfold first_tagged. intros [Hin Hc]%find_some. split.
  - by apply list_elem_of_In.
  - by apply compareProbeID_tagged.
Qed.

Lemma first_tagged_None id result :
  first_tagged id result = None <->
  ∀ row, row ∈ concat (Rows <$> result) -> ¬ tagged row id.
Proof.
  unfold first_tagged. split.
  - intros Hf row Hin Ht. apply list_elem_of_In in Hin.
    apply (find_none _ _ Hf) in Hin. apply compareProbeID_tagged in Ht. congruence.
  - intros Hno. destruct (List.find _ _) as [row|] eqn:Hf; [|done].
    apply find_some in Hf as [Hin Hc].
    destruct (Hno row); [by apply list_elem_of_In | by apply compareProbeID_tagged].
Qed.

Lemma retrieve_answered o id result :
  ovs_respond (ovsClient o) [selectOp] = inl result ->
  retrieveSFlowProbeUUID GraphT ovs_respond o id =
    ((first_probe_row id result, None), with_ovsClient o (ovsClient o ++ [[selectOp]])).
Proof. unfold retrieveSFlowProbeUUID, Exec. by intros ->. Qed.

Lemma first_tagged_split id result pre row post :
  concat (Rows <$> result) = pre ++ row :: post ->
  Forall (λ r, ¬ tagged r id) pre ->
  tagged row id ->
  first_tagged id result = Some row.
Proof.
  unfold first_tagged. intros -> Hpre Hrow.
  induction Hpre as [|r pre Hr _ IH]; simpl.
  - apply compareProbeID_tagged in Hrow. by rewrite Hrow.
  - destruct (compareProbeID r id) eqn:Hc; [|done].
    by apply compareProbeID_tagged in Hc.
Qed.

Lemma Alloc_fresh_lookup u (p : OvsSFlowProbe) a agent a1 :
  Sflow.Alloc cfg u p a = ((Some agent, None), a1) ->
  Sflow.allocated a1 !! Sflow.Port agent = Some agent.
Proof.
  unfold Sflow.Alloc. destruct (Sflow.find_agent _ _); [done|].
  destruct (Sflow.scan_ports _ _ _) as [i|]; [|done].
  intros [= <- <-]. simpl. by rewrite lookup_insert_eq.
Qed.

(** C5 (as amended). On an OVS bridge whose uuid is [u], and a switch that
    answers the select: when the first row tagged with the bridge's probe id
    has a uuid, [UnregisterProbe] sends one more transaction, the update of
    the row of table Bridge whose [_uuid] is [u], setting the column [sflow]
    to the empty set, and returns what the switch answers to it; when no row
    is tagged, or the first tagged row has no uuid, it sends nothing but the
    select and returns nil.  In each case the allocator is left as it was:
    the bridge's agent is not released. *)
Theorem UnregisterProbe_clears_reference o n u result
    (Hb : isOvsBridge n = true)
    (Hu : metadata n !! "UUID" = Some (VString u)) :
  let select :=
    {| Op := "select"; Table := "sFlow"; Row := ∅;
       Where := [("_uuid", "!=", OvsUUID "abc")]; UUIDName := "" |} in
  let clear :=
    {| Op := "update"; Table := "Bridge"; Row := {["sflow" := OvsSet []]};
       Where := [("_uuid", "==", OvsUUID u)]; UUIDName := "" |} in
  ovs_respond (ovsClient o) [select] = inl result ->
  ∃ e o',
    UnregisterProbe o n = Returns (e, o')
    ∧ allocator o' = allocator o
    ∧ Graph o' = Graph o
    ∧ ((∀ row, row ∈ concat (Rows <$> result) -> ¬ tagged row (probeID u)) ->
       e = None ∧ ovsClient o' = ovsClient o ++ [[select]])
    ∧ (∀ pre row post,
         concat (Rows <$> result) = pre ++ row :: post ->
         Forall (λ r, ¬ tagged r (probeID u)) pre ->
         tagged row (probeID u) ->
         (row_uuid row ≠ "" ->
            e = match ovs_respond (ovsClient o ++ [[select]]) [clear] with
                | inr err => Some err
                | inl _ => None
                end
            ∧ ovsClient o' = ovsClient o ++ [[select]; [clear]])
         ∧ (row_uuid row = "" ->
            e = None ∧ ovsClient o' = ovsClient o ++ [[select]])).
Proof.
  intros select clear Hsel.
  unfold OvsSFlow.UnregisterProbe. rewrite Hb, Hu. simpl.
  unfold unregisterProbe, UnregisterSFlowProbeFromBridge.
  rewrite (retrieve_answered _ _ _ Hsel).
  unfold first_probe_row.
  destruct (first_tagged (probeID u) result) as [row|] eqn:Hf.
  - pose proof (first_tagged_Some _ _ _ Hf) as [Hin Ht].
    destruct (decide (row_uuid row = "")) as [Hempty|Hfull].
    + eexists _, _. split; [reflexivity|]. simpl.
      split; [reflexivity|]. split; [reflexivity|]. split.
      * intros Hno. by destruct (Hno row).
      * intros pre row' post Hrows Hpre Hrow'.
        rewrite (first_tagged_split _ _ _ _ _ Hrows Hpre Hrow') in Hf.
        injection Hf as ->. by split.
    + unfold Exec. simpl.
      destruct (ovs_respond (_ ++ _) _);
        (eexists _, _; split; [reflexivity|]; simpl;
         split; [reflexivity|]; split; [reflexivity|]; split;
         [ intros Hno; by destruct (Hno row)
         | intros pre row' post Hrows Hpre Hrow';
           rewrite (first_tagged_split _ _ _ _ _ Hrows Hpre Hrow') in Hf;
           injection Hf as ->; split; [intros _; by rewrite <-app_assoc | done] ]).
  - rewrite decide_True by done.
    eexists _, _. split; [reflexivity|]. simpl.
    split; [reflexivity|]. split; [reflexivity|]. split; [done|].
    intros pre row post Hrows Hpre Hrow.
    by rewrite (first_tagged_split _ _ _ _ _ Hrows Hpre Hrow) in Hf.
Qed.

(** C7. On an OVS bridge: when the graph has no path along ownership edges
    from the bridge to a host, [RegisterProbe] returns an error and does
    nothing else.  When it has one, the bridge's uuid is [u], the allocator
    gives an agent for the probe that carries the serialised path (a new
    agent, which then holds that probe with the agent's address as target,
    or the one the uuid already has) and the switch answers the select, the
    next transaction depends on the rows tagged with [probeID u]: the first
    of them, when it has a uuid, is reused, the only operation being the
    update that points the bridge's [sflow] column at it; when there is
    none, a row with agent "lo", the agent's address as target, header 256,
    sampling 1, polling 0 and the probe id in [external_ids] is inserted and
    the bridge pointed at it. *)
Theorem RegisterProbe_installs_sampling o n (Hb : isOvsBridge n = true) :
  let nodes := LookupShortestPath (Graph o) n host_metadata IsOwnershipEdge in
  let select :=
    {| Op := "select"; Table := "sFlow"; Row := ∅;
       Where := [("_uuid", "!=", OvsUUID "abc")]; UUIDName := "" |} in
  let point_at (u sflow : string) :=
    {| Op := "update"; Table := "Bridge"; Row := {["sflow" := OvsUUID sflow]};
       Where := [("_uuid", "==", OvsUUID u)]; UUIDName := "" |} in
  let probe (u target : string) :=
    {| OvsSFlow.ID := probeID u; Interface := "lo"; Target := target;
       HeaderSize := 256; Sampling := 1; Polling := 0;
       ProbeGraphPath := NodePath_Marshal nodes |} in
  (nodes = [] -> ∃ e, RegisterProbe o n = Returns (Some e, o))
  ∧ (∀ u agent err a1 result,
       nodes ≠ [] ->
       metadata n !! "UUID" = Some (VString u) ->
       Sflow.Alloc cfg u (probe u "") (allocator o) = ((Some agent, err), a1) ->
       err = None ∨ err = Some AgentAlreadyAllocated ->
       ovs_respond (ovsClient o) [select] = inl result ->
       ∃ e o',
         RegisterProbe o n = Returns (e, o')
         ∧ (err = None ->
            Sflow.FlowProbePathSetter
              <$> (Sflow.allocated (allocator o') !! Sflow.Port agent)
            = Some (Some (probe u (Sflow.GetTarget agent))))
         ∧ (∀ pre row post,
              concat (Rows <$> result) = pre ++ row :: post ->
              Forall (λ r, ¬ tagged r (probeID u)) pre ->
              tagged row (probeID u) ->
              row_uuid row ≠ "" ->
              ovsClient o' = ovsClient o ++ [[select]; [point_at u (row_uuid row)]])
         ∧ ((∀ row, row ∈ concat (Rows <$> result) -> ¬ tagged row (probeID u)) ->
              ovsClient o' =
                ovsClient o ++
                [[select];
                 [ {| Op := "insert"; Table := "sFlow";
                      Row := <["external_ids" := OvsMap {["probe-id" := probeID u]}]>
                             (<["polling" := OvsUint32 0]>
                             (<["sampling" := OvsUint32 1]>
                             (<["header" := OvsUint32 256]>
                             (<["targets" := OvsString (Sflow.GetTarget agent)]>
                             (<["agent" := OvsString "lo"]> ∅)))));
                      Where := []; UUIDName := probeID u |};
                   point_at u (probeID u) ]])).
Proof.
  intros nodes select point_at probe.
  unfold OvsSFlow.RegisterProbe. rewrite Hb. fold nodes. split.
  - intros ->. simpl. by eexists.
  - intros u agent err a1 result Hnodes Hu Halloc Herr Hsel.
    rewrite decide_False by (by destruct nodes).
    rewrite Hu. simpl. unfold RegisterProbeOnBridge.
    change (new_probe u (NodePath_Marshal nodes)) with (probe u "").
    rewrite Halloc.
    assert (bool_decide (err ≠ None) && bool_decide (err ≠ Some AgentAlreadyAllocated)
            = false) as ->.
    { destruct Herr as [-> | ->]; by vm_compute. }
    change (set_Target (probe u "") (Sflow.GetTarget agent))
      with (probe u (Sflow.GetTarget agent)).
    set (a2 := match err with None => _ | Some _ => _ end).
    assert (err = None ->
            Sflow.FlowProbePathSetter <$> (Sflow.allocated a2 !! Sflow.Port agent)
            = Some (Some (probe u (Sflow.GetTarget agent)))) as Hheld.
    { intros ->. unfold a2, alias_probe. simpl.
      by rewrite lookup_alter_eq, (Alloc_fresh_lookup _ _ _ _ _ Halloc). }
    unfold registerSFlowProbeOnBridge.
    rewrite (retrieve_answered (with_allocator o a2) _ result) by done.
    unfold first_probe_row, Exec. simpl.
    destruct (first_tagged (probeID u) result) as [row|] eqn:Hf.
    + pose proof (first_tagged_Some _ _ _ Hf) as [Hin Ht].
      destruct (decide (row_uuid row ≠ "")) as [Hfull|Hempty]; simpl;
        destruct (ovs_respond (_ ++ _) _);
        (eexists _, _; split; [reflexivity|]; simpl; split; [exact Hheld|]; split;
         [ intros pre row' post Hrows Hpre Hrow' Hfull';
           rewrite (first_tagged_split _ _ _ _ _ Hrows Hpre Hrow') in Hf;
           injection Hf as ->; by rewrite <-?app_assoc
         | intros Hno; by destruct (Hno row) ]).
    + rewrite decide_False by (by intros []). simpl.
      destruct (ovs_respond (_ ++ _) _);
        (eexists _, _; split; [reflexivity|]; simpl; split; [exact Hheld|]; split;
         [ intros pre row post Hrows Hpre Hrow;
           by rewrite (first_tagged_split _ _ _ _ _ Hrows Hpre Hrow) in Hf
         | intros _; by rewrite <-app_assoc ]).
Qed.

End Handler.

Lemma not_a_bridge_is_left_alone_witness :
  RegisterProbe (gmap string Node) hosts_of marshal_ids Graph.ID (answers [probe_row])
    Sflow.two_ports handler0 eth0 = Returns (None, handler0)
  ∧ UnregisterProbe (gmap string Node) (answers [probe_row]) handler0 eth0
    = Returns (None, handler0).
Proof.
  apply not_a_bridge_is_left_alone. left. vm_compute. discriminate.
Defined.

(** On a switch whose table holds a row of another bridge and then the row
    of [br0], the row of [br0] is reused; on an empty table a row is
    inserted. *)
Lemma RegisterProbe_installs_sampling_witness :
  isOvsBridge br0 = true
  ∧ (∃ e o',
      RegisterProbe (gmap string Node) hosts_of marshal_ids Graph.ID
        (answers [other_row; probe_row]) Sflow.two_ports handler0 br0 = Returns (e, o')
      ∧ Sflow.FlowProbePathSetter <$> (Sflow.allocated (allocator o') !! 6345)
        = Some (Some {| OvsSFlow.ID := probeID br0_uuid; Interface := "lo";
                        Target := "127.0.0.1:6345"; HeaderSize := 256;
                        Sampling := 1; Polling := 0;
                        ProbeGraphPath := "host0/br0" |})
      ∧ ovsClient o' =
          [[ {| Op := "select"; Table := "sFlow"; Row := ∅;
                Where := [("_uuid", "!=", OvsUUID "abc")]; UUIDName := "" |} ];
           [ {| Op := "update"; Table := "Bridge";
                Row := {["sflow" := OvsUUID (row_uuid probe_row)]};
                Where := [("_uuid", "==", OvsUUID br0_uuid)]; UUIDName := "" |} ]])
  ∧ (∃ e o',
      RegisterProbe (gmap string Node) hosts_of marshal_ids Graph.ID (answers [])
        Sflow.two_ports handler0 br0 = Returns (e, o')
      ∧ ovsClient o' =
          [[ {| Op := "select"; Table := "sFlow"; Row := ∅;
                Where := [("_uuid", "!=", OvsUUID "abc")]; UUIDName := "" |} ];
           [ {| Op := "insert"; Table := "sFlow";
                Row := <["external_ids" := OvsMap {["probe-id" := probeID br0_uuid]}]>
                       (<["polling" := OvsUint32 0]>
                       (<["sampling" := OvsUint32 1]>
                       (<["header" := OvsUint32 256]>
                       (<["targets" := OvsString "127.0.0.1:6345"]>
                       (<["agent" := OvsString "lo"]> ∅)))));
                Where := []; UUIDName := probeID br0_uuid |};
             {| Op := "update"; Table := "Bridge";
                Row := {["sflow" := OvsUUID (probeID br0_uuid)]};
                Where := [("_uuid", "==", OvsUUID br0_uuid)]; UUIDName := "" |} ]]).
Proof.
  split; [reflexivity|]. split.
  - destruct (RegisterProbe_installs_sampling (gmap string Node) hosts_of marshal_ids
                Graph.ID (answers [other_row; probe_row]) Sflow.two_ports handler0 br0
                eq_refl) as [_ H].
    edestruct (H br0_uuid) as (e & o' & Hret & Hheld & Hreuse & _);
      [ discriminate | reflexivity | reflexivity | left; reflexivity | reflexivity | ].
    exists e, o'. split; [exact Hret|]. split; [exact (Hheld eq_refl)|].
    apply (Hreuse [other_row] probe_row []); [reflexivity | | | discriminate].
    + constructor; [|constructor]. intros (m & [= <-] & Hm). vm_compute in Hm. discriminate.
    + eexists. split; reflexivity.
  - destruct (RegisterProbe_installs_sampling (gmap string Node) hosts_of marshal_ids
                Graph.ID (answers []) Sflow.two_ports handler0 br0 eq_refl) as [_ H].
    edestruct (H br0_uuid) as (e & o' & Hret & _ & _ & Hinsert);
      [ discriminate | reflexivity | reflexivity | left; reflexivity | reflexivity | ].
    exists e, o'. split; [exact Hret|].
    apply Hinsert.
    intros row Hin. vm_compute in Hin. by apply elem_of_nil in Hin.
Defined.

Lemma UnregisterProbe_clears_reference_witness :
  ∃ e o',
    UnregisterProbe (gmap string Node) (answers [other_row; probe_row]) handler1 br0
    = Returns (e, o')
    ∧ allocator o' = allocator handler1
    ∧ e = None
    ∧ ovsClient o' =
        ovsClient handler1 ++
        [[ {| Op := "select"; Table := "sFlow"; Row := ∅;
              Where := [("_uuid", "!=", OvsUUID "abc")]; UUIDName := "" |} ];
         [ {| Op := "update"; Table := "Bridge"; Row := {["sflow" := OvsSet []]};
              Where := [("_uuid", "==", OvsUUID br0_uuid)]; UUIDName := "" |} ]].
Proof.
  destruct (UnregisterProbe_clears_reference (gmap string Node)
              (answers [other_row; probe_row]) handler1 br0 br0_uuid
              [ {| Rows := [other_row; probe_row] |} ] eq_refl eq_refl eq_refl)
    as (e & o' & Hret & Halloc & _ & _ & Hupd).
  exists e, o'. split; [exact Hret|]. split; [exact Halloc|].
  apply (Hupd [other_row] probe_row []); [reflexivity | | | discriminate].
  - constructor; [|constructor]. intros (m & [= <-] & Hm). vm_compute in Hm. discriminate.
  - eexists. split; reflexivity.
Defined.

(** C5, as stated, fails: the handler that registered the probe of [br0]
    holds the bridge's agent on port 6345; [UnregisterProbe] returns nil
    and the agent is still there, where [Release] would have removed it. *)
Lemma UnregisterProbe_keeps_agent :
  ∃ s o',
    Sflow.allocated (allocator handler1) !! 6345 = Some s
    ∧ Sflow.UUID s = br0_uuid
    ∧ UnregisterProbe (gmap string Node) (answers [probe_row]) handler1 br0
      = Returns (None, o')
    ∧ Sflow.allocated (allocator o') !! 6345 = Some s
    ∧ Sflow.allocated (Sflow.Release br0_uuid (allocator handler1)) !! 6345 = None.
Proof. eexists _, _. split_and!; reflexivity. Qed.

End OvsSFlowProps.

(** ** The probe-path cache and its updater channel *)
Module OvsSFlowCacheProps.

Import Graph OvsSFlowCache.

Section Handler.

Variable GraphT : Type.
Variable LookupNodes : GraphT -> Metadata -> list Node.
Variable LookupShortestPath : GraphT -> Node -> Metadata -> EdgePredicate -> list Node.
Variable NodePath_Marshal : list Node -> string.

Abbreviation cacheUpdater_step :=
  (cacheUpdater_step GraphT LookupNodes LookupShortestPath NodePath_Marshal).
Abbreviation GetProbePath := (GetProbePath GraphT).
Abbreviation resume := (resume GraphT).

Implicit Types (o : OvsSFlowProbesHandler GraphT) (index : Z).

Lemma chan_send_room {A} cap (buf : list A) v :
  (length buf < cap)%nat -> chan_send cap buf v = Sent (buf ++ [v]).
Proof. intros H. unfold chan_send. by rewrite decide_True. Qed.

Lemma chan_send_full {A} cap (buf : list A) v :
  (cap <= length buf)%nat -> chan_send cap buf v = SendBlocks.
Proof. intros H. unfold chan_send. rewrite decide_False; [done | lia]. Qed.

(** A receive from a full buffer leaves room for one element. *)
Lemma cacheUpdater_step_room o o1 :
  (length (cacheUpdaterChan o) <= chan_capacity)%nat ->
  cacheUpdater_step o = Some o1 ->
  (length (cacheUpdaterChan o1) < chan_capacity)%nat.
Proof.
  unfold OvsSFlowCache.cacheUpdater_step, chan_recv.
  destruct (cacheUpdaterChan o) as [|v rest] eqn:Hbuf; [done|].
  simpl. intros Hlen [= <-]. simpl. lia.
Qed.

(** A hit returns the cached path and sends nothing. *)
Lemma GetProbePath_hit o index path :
  cache o !! FormatInt10 index = Some path ->
  GetProbePath o index = Returned path o.
Proof. unfold OvsSFlowCache.GetProbePath. by intros ->. Qed.

(** C4 (as amended). On a cache miss: when the channel's buffer has room,
    [GetProbePath] appends the index to it and returns the empty path; when
    the buffer is full, the call is suspended in the send, and once the
    updater has received an element the send completes, so the index is
    enqueued, not dropped, and the call returns the empty path. *)
Theorem GetProbePath_miss o index
    (Hmiss : cache o !! FormatInt10 index = None)
    (Hcap : (length (cacheUpdaterChan o) <= chan_capacity)%nat) :
  ((length (cacheUpdaterChan o) < chan_capacity)%nat ->
     GetProbePath o index = Returned "" (enqueued o index))
  ∧ (length (cacheUpdaterChan o) = chan_capacity ->
     GetProbePath o index = BlockedOnSend index o
     ∧ ∀ o1, cacheUpdater_step o = Some o1 ->
         resume (GetProbePath o index) o1 = Returned "" (enqueued o1 index)).
Proof.
  unfold OvsSFlowCache.GetProbePath. rewrite Hmiss. split.
  - intros Hroom. by rewrite chan_send_room.
  - intros Hfull. rewrite chan_send_full by lia. split; [done|].
    intros o1 Hstep. simpl.
    by rewrite chan_send_room by (by eapply cacheUpdater_step_room).
Qed.

End Handler.

Lemma GetProbePath_miss_witness :
  GetProbePath unit full_handler 7 = BlockedOnSend 7 full_handler
  ∧ ∀ o1, cacheUpdater_step unit no_nodes no_path no_marshal full_handler = Some o1 ->
      resume unit (GetProbePath unit full_handler 7) o1 = Returned "" (enqueued o1 7).
Proof.
  apply (GetProbePath_miss unit no_nodes no_path no_marshal full_handler 7);
    [reflexivity | vm_compute; lia | reflexivity].
Defined.

(** C4, as stated, fails: with a full channel the call does not return the
    empty path; it is suspended, and the request it carries is delivered
    when the updater makes room. *)
Lemma GetProbePath_blocks_when_full :
  (length (cacheUpdaterChan full_handler) = chan_capacity)
  ∧ cache full_handler !! FormatInt10 7 = None
  ∧ GetProbePath unit full_handler 7 = BlockedOnSend 7 full_handler
  ∧ ∃ o1, cacheUpdater_step unit no_nodes no_path no_marshal full_handler = Some o1
      ∧ resume unit (GetProbePath unit full_handler 7) o1 = Returned "" (enqueued o1 7)
      ∧ last (cacheUpdaterChan (enqueued o1 7)) = Some 7.
Proof. split_and!; [reflexivity.. |]. eexists. split_and!; reflexivity. Qed.

End OvsSFlowCacheProps.

(** ** Identifiers *)
Module GouuidProps.

Import Gouuid.

Lemma hex_byte_alnum b : forallb is_lower_alnum (hex_byte b) = true.
Proof. destruct b; reflexivity. Qed.

Lemma hex_bytes_cons b bs : hex_bytes (b :: bs) = hex_byte b ++ hex_bytes bs.
Proof. done. Qed.

Lemma hex_bytes_alnum bs : forallb is_lower_alnum (hex_bytes bs) = true.
Proof.
  induction bs as [|b bs IH]; [done|].
  by rewrite hex_bytes_cons, forallb_app, IH, hex_byte_alnum.
Qed.

Lemma hex_bytes_length bs : length (hex_bytes bs) = (2 * length bs)%nat.
Proof.
  induction bs as [|b bs IH]; [done|].
  rewrite hex_bytes_cons, length_app, IH. simpl. lia.
Qed.

Lemma hex_bytes_app xs ys : hex_bytes (xs ++ ys) = hex_bytes xs ++ hex_bytes ys.
Proof. unfold hex_bytes. by rewrite fmap_app, concat_app. Qed.

Lemma decode_pairs_byte b rest :
  decode_pairs (hex_byte b ++ rest)
  = match decode_pairs rest with inl bs => inl (b :: bs) | inr e => inr e end.
Proof. destruct b; simpl; by destruct (decode_pairs rest). Qed.

Lemma decode_pairs_bytes bs : decode_pairs (hex_bytes bs) = inl bs.
Proof.
  induction bs as [|b bs IH]; [done|].
  by rewrite hex_bytes_cons, decode_pairs_byte, IH.
Qed.

(** Decoding what [%x] printed gives the bytes back. *)
Lemma DecodeString_bytes bs : DecodeString (hex_bytes bs) = inl bs.
Proof.
  unfold DecodeString. rewrite hex_bytes_length, Nat.odd_even.
  apply decode_pairs_bytes.
Qed.

Lemma group_app n xs rest :
  length xs = n -> forallb is_lower_alnum xs = true ->
  group n (xs ++ rest) = Some (xs, rest).
Proof.
  intros <- Hxs. unfold group.
  rewrite take_app_length, drop_app_length, Hxs.
  by rewrite bool_decide_eq_true_2.
Qed.

Lemma alnum_not_colon c : is_lower_alnum c = true -> Ascii.eqb ":" c = false.
Proof. destruct (Ascii.eqb_spec ":"%char c) as [<-|]; [by vm_compute | done]. Qed.

Lemma alnum_not_brace c : is_lower_alnum c = true -> Ascii.eqb "{" c = false.
Proof. destruct (Ascii.eqb_spec "{"%char c) as [<-|]; [by vm_compute | done]. Qed.

(** Neither optional prefix of the pattern can start a group of eight
    characters of the class. *)
Lemma optional_prefixes g rest :
  length g = 8%nat -> forallb is_lower_alnum g = true ->
  optional ["{"%char] (optional (list_ascii_of_string "urn:uuid:") (g ++ rest)) = g ++ rest.
Proof.
  intros Hlen Hg.
  do 8 (destruct g as [|? g]; [done|]). destruct g; [|done].
  simpl in Hg. repeat (apply andb_prop in Hg as [? Hg]).
  assert (optional (list_ascii_of_string "urn:uuid:") ([a; a0; a1; a2; a3; a4; a5; a6] ++ rest)
          = [a; a0; a1; a2; a3; a4; a5; a6] ++ rest) as ->.
  { unfold optional. simpl.
    repeat (case_match; try done). all: by rewrite alnum_not_colon in *. }
  unfold optional. cbn [strip_prefix app]. by rewrite alnum_not_brace.
Qed.

Lemma optional_end : optional ["}"%char] [] = [].
Proof. done. Qed.

Local Arguments group : simpl never.
Local Arguments optional : simpl never.

(** The pattern on five groups joined by dashes. *)
Lemma match_pattern_groups g1 g2 g3 g4 g5 :
  length g1 = 8%nat -> length g2 = 4%nat -> length g3 = 4%nat ->
  length g4 = 4%nat -> length g5 = 12%nat ->
  forallb is_lower_alnum g1 = true -> forallb is_lower_alnum g2 = true ->
  forallb is_lower_alnum g3 = true -> forallb is_lower_alnum g4 = true ->
  forallb is_lower_alnum g5 = true ->
  forallb is_version (take 1 g3) = true ->
  match_pattern (g1 ++ dash :: g2 ++ dash :: g3 ++ dash :: g4 ++ dash :: g5)
  = Some (g1 ++ g2 ++ g3 ++ g4 ++ g5).
Proof.
  intros L1 L2 L3 L4 L5 A1 A2 A3 A4 A5 V.
  unfold match_pattern.
  rewrite optional_prefixes by done.
  rewrite group_app by done. simpl.
  rewrite group_app by done. simpl.
  rewrite group_app by done. simpl. rewrite V. simpl.
  rewrite group_app by done. simpl.
  rewrite <-(app_nil_r g5) at 1. rewrite group_app by done.
  by rewrite optional_end.
Qed.

Lemma version_digit b rest :
  (1 <= Byte.to_N b / 16 <= 5)%N ->
  forallb is_version (take 1 (hex_byte b ++ rest)) = true.
Proof. destruct b; vm_compute; (reflexivity || (intros [H1 H2]; by destruct H1 || by destruct H2)). Qed.

(** Parsing what [String] printed gives the identifier back, for the
    identifiers the pattern accepts. *)
Lemma ParseHexE_String u : valid u -> ParseHexE (String u) = inl u.
Proof.
  intros [Hlen Hver]. unfold ParseHexE, String.
  rewrite list_ascii_of_string_of_list_ascii.
  do 16 (destruct u as [|? u]; [done|]). destruct u; [|done].
  unfold version in Hver. simpl in Hver. unfold String_chars.
  cbn [firstn skipn].
  rewrite match_pattern_groups;
    rewrite ?hex_bytes_length, ?hex_bytes_alnum; try done.
  - rewrite <-!hex_bytes_app. cbn [app]. apply DecodeString_bytes.
  - by apply version_digit.
Qed.

Lemma ParseHex_String u : valid u -> ParseHex (String u) = Some u.
Proof. intros Hu. unfold ParseHex. by rewrite ParseHexE_String. Qed.

Lemma ParseHex_Some s u : ParseHex s = Some u <-> ParseHexE s = inl u.
Proof. unfold ParseHex. destruct (ParseHexE s); split; congruence. Qed.

Lemma ParseHex_None s : ParseHex s = None <-> ∃ e, ParseHexE s = inr e.
Proof.
  unfold ParseHex. destruct (ParseHexE s) as [u|e]; split; try done.
  - by intros [? ?].
  - by exists e.
Qed.

End GouuidProps.

(** ** The alert engine *)
Module AlertProps.

Import Graph Alert.

Lemma length_append (s t : string) :
  String.length (s +:+ t) = (String.length s + String.length t)%nat.
Proof. induction s as [|c s IH]; simpl; [done | by rewrite IH]. Qed.

Lemma substring_prefix (s t : string) : substring 0 (String.length s) (s +:+ t) = s.
Proof. induction s as [|c s IH]; simpl; [by destruct t | by rewrite IH]. Qed.

(** [data[1 : len(data)-1]] of a quoted string is the string. *)
Lemma unquote (s : string) :
  let data := quote +:+ s +:+ quote in
  (2 <= String.length data)%nat
  ∧ substring 1 (String.length data - 2) data = s.
Proof.
  intros data.
  assert (data = String.String "034"%char (s +:+ quote)) as -> by reflexivity.
  cbn [String.length substring]. rewrite length_append.
  change (String.length quote) with 1%nat. split; [lia|].
  replace (S (String.length s + 1) - 2)%nat with (String.length s) by lia.
  apply substring_prefix.
Qed.

(** C9. For an identifier the parser accepts, that is, of 16 bytes with a
    version digit from 1 to 5, [UnmarshalJSON] applied to the bytes
    [MarshalJSON] produced returns that identifier. *)
Theorem UUID_json_roundtrip (id : UUID) (Hvalid : Gouuid.valid id) :
  UnmarshalJSON (MarshalJSON id) = Returns (inl id).
Proof.
  unfold UnmarshalJSON, MarshalJSON.
  destruct (unquote (UUID_String id)) as [Hlen ->].
  destruct (decide _) as [Hshort|_]; [lia|].
  unfold UUID_String. by rewrite GouuidProps.ParseHexE_String.
Qed.

Lemma valid_rule_uuid : Gouuid.valid rule_uuid.
Proof. split; [reflexivity|]. vm_compute. split; discriminate. Defined.

Lemma UUID_json_roundtrip_witness :
  Gouuid.valid rule_uuid
  ∧ MarshalJSON rule_uuid = quote +:+ "3f2a9011-7c5d-4e8b-a102-6d9e10c455f0" +:+ quote
  ∧ UnmarshalJSON (MarshalJSON rule_uuid) = Returns (inl rule_uuid).
Proof.
  split; [exact valid_rule_uuid|]. split; [reflexivity|].
  exact (UUID_json_roundtrip rule_uuid valid_rule_uuid).
Defined.

(** The identifier of sixteen zero bytes has version digit 0: the parser
    rejects what [MarshalJSON] prints for it. *)
Remark zero_uuid_rejected :
  UnmarshalJSON (MarshalJSON (replicate 16 Byte.x00))
  = Returns (inr (errors_New "Invalid UUID string")).
Proof. reflexivity. Qed.

Section Manager.

Variable GraphT : Type.
Variable LookupNodesFromKey : GraphT -> string -> list Node.
Variable json_Unmarshal : string -> Decoded.
Variable eval_run : gmap string (option (EvalType * Value)) -> string -> option string.
Variable Listener : Type.

Abbreviation Manager := (AlertManager GraphT Listener).
Abbreviation EvalNodes := (EvalNodes GraphT LookupNodesFromKey eval_run Listener).
Abbreviation watcher := (watcher GraphT json_Unmarshal Listener).
Abbreviation watcher_turn := (watcher_turn GraphT json_Unmarshal Listener).

Implicit Types (a : Manager) (resp : Response).

Lemma with_alerts_id a : with_alerts a (alerts a) = a.
Proof. by destruct a. Qed.

(** [EvalNodes] only reads the manager: whatever it counts, it counts on
    copies of the rules. *)
Lemma EvalNodes_reads_only now a a' msgs calls :
  EvalNodes now a = Returns (a', msgs, calls) -> a' = a.
Proof.
  unfold Alert.EvalNodes. destruct (eval_rules _ _ _ _ _ _); [|done].
  by intros [= <- _ _].
Qed.

Lemma is_upsert_elem action :
  action ∈ ["create"; "set"; "update"] -> is_upsert action = true.
Proof. rewrite !elem_of_cons, elem_of_nil. intros [->|[->|[->|[]]]]; done. Qed.

Lemma is_removal_elem action :
  action ∈ ["delete"; "expire"] -> is_upsert action = false ∧ is_removal action = true.
Proof. rewrite !elem_of_cons, elem_of_nil. intros [->|[->|[]]]; done. Qed.

Lemma DeleteAlertTest_delete a uid :
  snd (DeleteAlertTest GraphT Listener a uid) = with_alerts a (delete uid (alerts a)).
Proof.
  unfold DeleteAlertTest. destruct (alerts a !! uid) eqn:Hl; [done|]. simpl.
  rewrite delete_id by done. by rewrite with_alerts_id.
Qed.

Lemma watcher_cons a ev rest :
  watcher a (ev :: rest)
  = match watcher_turn a ev with
    | Continue a' => watcher a' rest
    | w => w
    end.
Proof. reflexivity. Qed.

(** [UnmarshalJSON] returns on two bytes or more. *)
Lemma UnmarshalJSON_returns raw :
  (2 <= String.length raw)%nat -> ∃ r, UnmarshalJSON raw = Returns r.
Proof.
  intros Hlen. unfold UnmarshalJSON.
  destruct (decide _) as [Hshort|_]; [lia|].
  destruct (Gouuid.ParseHexE _); by eexists.
Qed.

(** C6 (as amended). An event whose node is a directory is skipped.  For an
    event whose node is not a directory: on create, set or update, a value
    that [json.Unmarshal] reads without an error of its own and whose member
    [UUID] parses as an identifier is stored, with that identifier, under
    it, and a value that does not deserialize (the member [UUID], of two
    bytes or more, does not parse, or the decoder reports an error of its
    own) is skipped; on delete or expire, the rule named by the last segment
    of the key is removed, and a segment that is no identifier is skipped.
    In each case the watcher goes on with the events that follow. *)
Theorem watcher_reconciles a resp rest :
  let d := json_Unmarshal (Value_ (EvNode resp)) in
  let r := dec_rule d in
  (Dir (EvNode resp) = true -> watcher a (inl resp :: rest) = watcher a rest)
  ∧ (Dir (EvNode resp) = false ->
     (EvAction resp ∈ ["create"; "set"; "update"] ->
        (∀ raw uid,
           dec_failed d = false ->
           dec_uuid d = Some raw -> UnmarshalJSON raw = Returns (inl uid) ->
           watcher a (inl resp :: rest)
           = watcher
               (with_alerts a
                  (<[uid := {| Name := Name r; Description := Description r;
                               Select := Select r; Test := Test r;
                               Action := Action r; UUID_ := Some uid;
                               CreateTime := CreateTime r; Type_ := Type_ r;
                               Count := Count r |}]> (alerts a))) rest)
        ∧ (∀ raw e,
             dec_uuid d = Some raw -> UnmarshalJSON raw = Returns (inr e) ->
             watcher a (inl resp :: rest) = watcher a rest)
        ∧ (dec_failed d = true ->
           (∀ raw, dec_uuid d = Some raw -> (2 <= String.length raw)%nat) ->
           watcher a (inl resp :: rest) = watcher a rest))
     ∧ (EvAction resp ∈ ["delete"; "expire"] ->
        (∀ uid,
           Gouuid.ParseHex (path_Base (Key (EvNode resp))) = Some uid ->
           watcher a (inl resp :: rest)
           = watcher (with_alerts a (delete uid (alerts a))) rest)
        ∧ (Gouuid.ParseHex (path_Base (Key (EvNode resp))) = None ->
           watcher a (inl resp :: rest) = watcher a rest))).
Proof.
  intros d r. rewrite watcher_cons. unfold Alert.watcher_turn.
  split; [by intros ->|]. intros ->. split.
  - intros ->%is_upsert_elem. unfold alertTestFromData. fold d.
    split; [|split].
    + intros raw uid -> -> ->. reflexivity.
    + by intros raw e -> ->.
    + intros -> Hlen. destruct (dec_uuid d) as [raw|]; [|done].
      destruct (UnmarshalJSON_returns raw) as [[uid|e] ->]; by auto.
  - intros [-> ->]%is_removal_elem. split.
    + intros uid ->. by rewrite DeleteAlertTest_delete.
    + by intros ->.
Qed.

End Manager.

Lemma watcher_reconciles_witness :
  let decode := decode_only "{rule}" host_rule in
  let a : AlertManager (list Node) string :=
    {| Graph := []; alerts := ∅; eventListeners := [] |} in
  watcher (list Node) decode string a
    [inl (event "delete" "" true); inl (event "set" "{rule}" false);
     inl (event "set" "{" false); inl (event "delete" "" false)]
  = Continue a.
Proof.
  intros decode a.
  destruct (watcher_reconciles (list Node) decode string a (event "delete" "" true)
              [inl (event "set" "{rule}" false); inl (event "set" "{" false);
               inl (event "delete" "" false)]) as [Hdir _].
  rewrite (Hdir eq_refl).
  destruct (watcher_reconciles (list Node) decode string a (event "set" "{rule}" false)
              [inl (event "set" "{" false); inl (event "delete" "" false)])
    as [_ Hfile].
  destruct (Hfile eq_refl) as [Hset _].
  destruct Hset as [Hstore _]; [by apply (bool_decide_unpack _)|].
  rewrite (Hstore (MarshalJSON rule_uuid) rule_uuid eq_refl eq_refl eq_refl).
  reflexivity.
Defined.

(** C6, as stated, fails on the events of directories: the event that
    deletes a directory named by the identifier of a stored rule is
    skipped, and the rule stays. *)
Lemma watcher_skips_directories :
  let a := manager0 [] in
  Gouuid.ParseHex (path_Base (Key (EvNode (event "delete" "" true)))) = Some rule_uuid
  ∧ alerts a !! rule_uuid = Some host_rule
  ∧ watcher_turn (list Node) (decode_only "{rule}" host_rule) string a
      (inl (event "delete" "" true)) = Continue a.
Proof. split_and!; reflexivity. Qed.

(** A value that decodes to a rule without identifier is not skipped:
    [SetAlertTest] dereferences the nil pointer and the task panics. *)
Remark upsert_without_identifier_panics :
  watcher_turn (list Node) (decode_only "{}" anonymous_rule) string (manager0 [])
    (inl (event "set" "{}" false))
  = Panic "invalid memory address or nil pointer dereference".
Proof. reflexivity. Qed.

(** Nor is a value whose member [UUID] is a single byte, as in
    [{"UUID":1}]: [UnmarshalJSON] slices it from 1 to 0 and the task
    panics. *)
Remark upsert_with_short_identifier_panics :
  UnmarshalJSON "1" = Panics "slice bounds out of range"
  ∧ watcher_turn (list Node) (decode_uuid_bytes "1") string (manager0 [])
      (inl (event "set" "{UUID:1}" false))
    = Panic "slice bounds out of range".
Proof. split; reflexivity. Qed.

(** A member [UUID] in the shape of an identifier with a letter after f is
    refused by [hex.DecodeString], not by the pattern, and the error is
    that function's. *)
Remark UnmarshalJSON_hex_error :
  UnmarshalJSON (quote +:+ "3f2a9011-7c5d-4e8b-a102-6d9e10c45xyz" +:+ quote)
  = Returns (inr (errors_New "encoding/hex: invalid byte: U+0078 'x'")).
Proof. reflexivity. Qed.

(** C1 fails on the code: with the rule stored with count 0 and one host
    in the graph, [EvalNodes] sends one message with count 1 and leaves the
    stored count at 0; with a second, identical host in the graph, the next
    call sends two messages, with counts 1 and 2, and the stored count is
    still 0. *)
Theorem EvalNodes_count_lost :
  EvalNodes (list Node) nodes_with_key eval_host_test string 100 (manager0 [h1])
  = Returns (manager0 [h1], [host_msg 100 h1 1], [("ws", host_msg 100 h1 1)])
  ∧ EvalNodes (list Node) nodes_with_key eval_host_test string 200 (manager0 [h1; h2])
    = Returns (manager0 [h1; h2],
               [host_msg 200 h1 1; host_msg 200 h2 2],
               [("ws", host_msg 200 h1 1); ("ws", host_msg 200 h2 2)])
  ∧ Count <$> (alerts (manager0 [h1; h2]) !! rule_uuid) = Some 0.
Proof. split_and!; reflexivity. Qed.

End AlertProps.

(** ** More on the agent allocator *)
Module AllocatorProps.

Import Sflow.

Section WithPathSetter.

Context {PathSetter : Type}.
Implicit Types (m : gmap Z (SFlowAgent PathSetter)) (a : SFlowAgentAllocator PathSetter).
Implicit Types (s : SFlowAgent PathSetter) (c : Config).

Local Ltac int_lia := unfold in_int, int_min, int_max in *; lia.

(** Whatever the range, the port the scan returns is free. *)
Lemma scan_ports_free m n i port : scan_ports m n i = Some port -> m !! port = None.
Proof.
  revert i. induction n as [|n IH]; intros i; simpl; [done|].
  destruct (m !! i) eqn:Hi; [apply IH | by intros [= <-]].
Qed.

(** X1. [Alloc] never replaces or moves an agent that is allocated: either
    the allocator is returned as it was, or one agent with the requested
    uuid is added on a port that was free and one task is spawned for it.
    This holds for every configuration. *)
Theorem Alloc_keeps_agents c uuid p a :
  let '(r, a') := Alloc c uuid p a in
  (∀ port s, allocated a !! port = Some s -> allocated a' !! port = Some s)
  ∧ (a' = a ∧ r.2 ≠ None
     ∨ ∃ port, allocated a !! port = None
         ∧ r = (Some (fresh_agent c uuid port p), None)
         ∧ allocated a' = <[port := fresh_agent c uuid port p]> (allocated a)
         ∧ spawned a' = spawned a ++ [port]).
Proof.
  unfold Alloc. destruct (find_agent _ _) as [s|]; [by split; [|left]|].
  destruct (scan_ports _ _ _) as [i|] eqn:Hs; [|by split; [|left]].
  apply scan_ports_free in Hs. split.
  - intros port s Hport. simpl. rewrite lookup_insert_ne; [done|congruence].
  - right. by exists i.
Qed.

(** X2. After [Release uuid] no agent has that uuid, the agents of the
    other uuids are where they were, nothing is spawned, and releasing a
    uuid that has no agent changes nothing. *)
Theorem Release_removes_uuid uuid a :
  find_agent uuid (allocated (Release uuid a)) = None
  ∧ (∀ port s, UUID s ≠ uuid ->
       allocated (Release uuid a) !! port = Some s <-> allocated a !! port = Some s)
  ∧ spawned (Release uuid a) = spawned a
  ∧ (find_agent uuid (allocated a) = None -> Release uuid a = a).
Proof.
  split_and!.
  - apply SflowProps.find_agent_None. intros port s. simpl.
    rewrite map_lookup_filter_Some. simpl. intros [_ Hne]. congruence.
  - intros port s Hne. simpl. rewrite map_lookup_filter_Some. simpl.
    split; [by intros [? _] | intros ?; split; [done | congruence]].
  - done.
  - intros Hf. rewrite SflowProps.find_agent_None in Hf.
    destruct a as [m tasks]. unfold Release. simpl in *. f_equal.
    apply map_filter_id. intros port s Hs. simpl.
    specialize (Hf port s Hs). congruence.
Qed.

(** X3. Allocating an agent for a uuid that had none and releasing that uuid
    gives back the map of agents as it was. *)
Theorem Alloc_then_Release c uuid p a s a'
    (Hnew : find_agent uuid (allocated a) = None)
    (Halloc : Alloc c uuid p a = ((Some s, None), a')) :
  allocated (Release uuid a') = allocated a.
Proof.
  pose proof (Alloc_keeps_agents c uuid p a) as H. rewrite Halloc in H.
  destruct H as [_ [[_ Herr]|(port & Hfree & [= ->] & Hmap & _)]]; [done|].
  rewrite SflowProps.find_agent_None in Hnew.
  simpl. rewrite Hmap. apply map_eq. intros q.
  destruct (decide (q = port)) as [->|Hq].
  - rewrite Hfree. apply map_lookup_filter_None. right. intros t.
    rewrite lookup_insert_eq. intros [= <-]. simpl. by intros Hne.
  - destruct (allocated a !! q) as [t|] eqn:Hq'.
    + apply map_lookup_filter_Some. rewrite lookup_insert_ne by done.
      split; [done|]. simpl. specialize (Hnew q t Hq'). congruence.
    + apply map_lookup_filter_None. left. by rewrite lookup_insert_ne.
Qed.

(** X4. The allocator never holds more agents than the range has ports. *)
Theorem allocated_within_capacity c a (Hc : valid_range c) (Hr : reachable c a) :
  Z.of_nat (size (allocated a)) <= max_of c - min_of c + 1.
Proof.
  destruct (SflowProps.reachable_inv c a Hc Hr) as [Hport _].
  destruct Hc as (_ & Hle & _).
  set (ports := seqZ (min_of c) (max_of c - min_of c + 1)).
  assert (Hsub : dom (allocated a) ⊆ (list_to_set ports : gset Z)).
  { intros q [s Hs]%elem_of_dom. destruct (Hport q s Hs) as [_ Hq].
    apply elem_of_list_to_set, elem_of_seqZ. lia. }
  apply subseteq_size in Hsub.
  rewrite size_dom, size_list_to_set in Hsub by apply NoDup_seqZ.
  unfold ports in Hsub. rewrite length_seqZ in Hsub. lia.
Qed.

Lemma iterations_zero lo hi :
  in_int lo -> in_int hi -> lo = wrap_int (hi + 1) -> iterations lo hi = 0%nat.
Proof.
  intros _ _ ->. unfold iterations. by rewrite Z.sub_diag, Z.mod_0_l.
Qed.

Lemma wrap_int_range z : in_int (wrap_int z).
Proof.
  unfold wrap_int. pose proof (Z.mod_pos_bound (z + 2 ^ 63) (2 ^ 64)). int_lia.
Qed.

Lemma iterations_pos lo hi :
  in_int lo -> lo ≠ wrap_int (hi + 1) -> iterations lo hi ≠ 0%nat.
Proof.
  intros Hlo Hne. unfold iterations.
  pose proof (wrap_int_range (hi + 1)) as Hw.
  set (w := wrap_int (hi + 1)) in *.
  assert (0 < (w - lo) `mod` 2 ^ 64); [|lia].
  destruct (decide (lo < w)).
  - rewrite Z.mod_small; int_lia.
  - replace (w - lo) with ((w - lo + 2 ^ 64) - 1 * 2 ^ 64) by lia.
    rewrite Zminus_mod, Z_mod_mult, Z.sub_0_r, Z.mod_mod by lia.
    rewrite Z.mod_small; int_lia.
Qed.

(** X5. The loop [for i := min; i != max+1; i++] on ranges that are not
    proper: when [min] is [max + 1] the body never runs and [Alloc] reports
    the ports exhausted, even on an empty allocator; in every other case the
    first port tried is [min], which is handed out when it is free, also
    when [min] lies above [max]. *)
Theorem Alloc_on_improper_range c uuid p a
    (Hmin : in_int (min_of c))
    (Hnew : find_agent uuid (allocated a) = None) :
  (min_of c = wrap_int (max_of c + 1) ->
     Alloc c uuid p a = ((None, Some port_exhausted), a))
  ∧ (min_of c ≠ wrap_int (max_of c + 1) -> allocated a !! min_of c = None ->
     Alloc c uuid p a =
       ((Some (fresh_agent c uuid (min_of c) p), None),
        {| allocated := <[min_of c := fresh_agent c uuid (min_of c) p]> (allocated a);
           spawned := spawned a ++ [min_of c] |})).
Proof.
  unfold Alloc. rewrite Hnew. split.
  - intros Heq. unfold iterations. rewrite <-Heq, Z.sub_diag, Z.mod_0_l by lia. done.
  - intros Hne Hfree. apply (iterations_pos _ _ Hmin) in Hne.
    destruct (iterations _ _) as [|n]; [done|]. simpl. by rewrite Hfree.
Qed.

(** Every agent of a reachable allocator listens on the configured address. *)
Lemma reachable_addr c a port s :
  reachable c a -> allocated a !! port = Some s -> Addr s = address_of c.
Proof.
  intros Hr. revert port s. induction Hr as [|a uuid p Hr IH|a uuid Hr IH|a Hr IH];
    intros port s; simpl.
  - by rewrite lookup_empty.
  - pose proof (Alloc_keeps_agents c uuid p a) as H.
    destruct (Alloc c uuid p a) as [r a']. simpl.
    destruct H as [_ [[-> _]|(q & _ & _ & -> & _)]]; [apply IH|].
    rewrite lookup_insert. case_decide; [by intros [= <-] | apply IH].
  - intros [Hs _]%map_lookup_filter_Some. by eapply IH.
  - by rewrite lookup_empty.
Qed.

(** X6. Distinct agents of the allocator have distinct targets: the switch
    never sends the samples of two bridges to one address and port. *)
Theorem targets_distinct c a p q s t
    (Hc : valid_range c) (Hr : reachable c a)
    (Hs : allocated a !! p = Some s) (Ht : allocated a !! q = Some t)
    (Hpq : p ≠ q) :
  GetTarget s ≠ GetTarget t.
Proof.
  destruct (SflowProps.reachable_inv c a Hc Hr) as [Hport _].
  destruct (Hport p s Hs) as [Hp _], (Hport q t Ht) as [Hq _].
  unfold GetTarget, FormatInt10.
  rewrite (reachable_addr c a p s Hr Hs), (reachable_addr c a q t Hr Ht).
  intros Heq. do 2 apply String.app_inj in Heq.
  apply (inj pretty) in Heq. congruence.
Qed.

(** X7. [Agents] lists the allocated agents, each entry of the map once;
    after [ReleaseAll] it lists none. *)
Theorem Agents_lists_allocated a :
  (∀ s, s ∈ Agents a <-> ∃ port, allocated a !! port = Some s)
  ∧ length (Agents a) = size (allocated a)
  ∧ Agents (ReleaseAll a) = [].
Proof.
  unfold Agents. split_and!.
  - intros s. rewrite list_elem_of_fmap. split.
    + intros ([port s'] & -> & Hin%elem_of_map_to_list). by exists port.
    + intros [port Hs]. exists (port, s). split; [done|]. by apply elem_of_map_to_list.
  - by rewrite length_fmap, length_map_to_list.
  - simpl. by rewrite map_to_list_empty.
Qed.

End WithPathSetter.

Lemma Alloc_then_Release_witness :
  allocated (Release "br-1" (snd (Alloc two_ports "br-1" tt NewSFlowAgentAllocator)))
  = allocated (NewSFlowAgentAllocator (PathSetter := unit)).
Proof.
  apply (Alloc_then_Release two_ports "br-1" tt NewSFlowAgentAllocator
           (fresh_agent two_ports "br-1" 6345 tt)); reflexivity.
Defined.

Lemma allocated_within_capacity_witness :
  let a := snd (Alloc two_ports "br-2" tt
             (snd (Alloc two_ports "br-1" tt NewSFlowAgentAllocator))) in
  size (allocated a) = 2%nat ∧ Z.of_nat (size (allocated a)) <= 6346 - 6345 + 1.
Proof.
  intros a. split; [reflexivity|].
  apply (allocated_within_capacity two_ports a SflowProps.valid_two_ports).
  apply reach_Alloc, reach_Alloc, reach_new.
Defined.

Lemma Alloc_on_improper_range_witness :
  let empty_range := {| sflow_bind_address := ""; sflow_port_min := 7000;
                        sflow_port_max := 6999 |} in
  let inverted := {| sflow_bind_address := ""; sflow_port_min := 7000;
                     sflow_port_max := 6000 |} in
  Alloc empty_range "br-1" tt NewSFlowAgentAllocator
    = ((None, Some port_exhausted), NewSFlowAgentAllocator)
  ∧ fst (Alloc inverted "br-1" tt NewSFlowAgentAllocator)
    = (Some (fresh_agent inverted "br-1" 7000 tt), None).
Proof.
  intros empty_range inverted.
  assert (Hint : in_int 7000) by (unfold in_int, int_min, int_max; lia).
  split.
  - apply (Alloc_on_improper_range empty_range "br-1" tt NewSFlowAgentAllocator Hint);
      reflexivity.
  - destruct (Alloc_on_improper_range inverted "br-1" tt NewSFlowAgentAllocator Hint
                eq_refl) as [_ H].
    rewrite H; [reflexivity | by vm_compute | reflexivity].
Defined.

Lemma targets_distinct_witness :
  let a := snd (Alloc two_ports "br-2" tt
             (snd (Alloc two_ports "br-1" tt NewSFlowAgentAllocator))) in
  GetTarget (fresh_agent two_ports "br-1" 6345 tt)
  ≠ GetTarget (fresh_agent two_ports "br-2" 6346 tt).
Proof.
  intros a.
  apply (targets_distinct two_ports a 6345 6346 _ _ SflowProps.valid_two_ports);
    [apply reach_Alloc, reach_Alloc, reach_new | reflexivity | reflexivity | lia].
Defined.

End AllocatorProps.

(** ** More on the OVS sFlow probe handler *)
Module HandlerProps.

Import Graph OvsSFlow.

Lemma replace_dash_length s : String.length (replace_dash s) = String.length s.
Proof. induction s as [|c s IH]; simpl; [done | by rewrite IH]. Qed.

Lemma replace_dash_no_dash s : "-"%char ∉ list_ascii_of_string (replace_dash s).
Proof.
  induction s as [|c s IH]; simpl; [apply not_elem_of_nil|].
  apply not_elem_of_cons. split; [|done].
  destruct (Ascii.eqb_spec c "-"%char) as [->|Hc]; [done | congruence].
Qed.

Lemma replace_dash_inj s t :
  "_"%char ∉ list_ascii_of_string s -> "_"%char ∉ list_ascii_of_string t ->
  replace_dash s = replace_dash t -> s = t.
Proof.
  revert t. induction s as [|c s IH]; intros [|d t]; simpl; try done.
  rewrite !not_elem_of_cons. intros [Hc Hs] [Hd Ht] [= Hcd Hst].
  f_equal; [|by apply IH].
  destruct (Ascii.eqb_spec c "-"%char) as [->|?],
           (Ascii.eqb_spec d "-"%char) as [->|?]; congruence.
Qed.

(** X8. The probe id of a bridge contains no dash, is 18 characters longer
    than the uuid, and distinguishes the uuids that contain no underscore:
    two bridges with distinct such uuids never share a sampling row. *)
Theorem probeID_distinguishes u v
    (Hu : "_"%char ∉ list_ascii_of_string u)
    (Hv : "_"%char ∉ list_ascii_of_string v) :
  (probeID u = probeID v -> u = v)
  ∧ ("-"%char ∉ list_ascii_of_string (probeID u))
  ∧ String.length (probeID u) = (18 + String.length u)%nat.
Proof.
  unfold probeID. split_and!.
  - intros Heq%String.app_inj. by apply replace_dash_inj.
  - simpl. rewrite !not_elem_of_cons. split_and!; try done. apply replace_dash_no_dash.
  - by rewrite AlertProps.length_append, replace_dash_length.
Qed.

Lemma probeID_distinguishes_witness :
  probeID br0_uuid = "SkydiveSFlowProbe_5a1c2e9e_7f0b_4c55_9a3e_0d6a52b1c001"
  ∧ probeID br0_uuid ≠ probeID "5a1c2e9e-7f0b-4c55-9a3e-0d6a52b1c002".
Proof.
  split; [reflexivity|]. intros Heq.
  assert (H1 : "_"%char ∉ list_ascii_of_string br0_uuid)
    by (apply (bool_decide_unpack _); vm_compute; exact I).
  assert (H2 : "_"%char ∉ list_ascii_of_string "5a1c2e9e-7f0b-4c55-9a3e-0d6a52b1c002")
    by (apply (bool_decide_unpack _); vm_compute; exact I).
  destruct (probeID_distinguishes _ _ H1 H2) as [Hinj _].
  apply Hinj in Heq. discriminate Heq.
Defined.

Section Handler.

Variable GraphT : Type.
Variable LookupShortestPath : GraphT -> Node -> Metadata -> EdgePredicate -> list Node.
Variable NodePath_Marshal : list Node -> string.
Variable Sprint_node : Node -> string.
Variable ovs_respond :
  list (list Operation) -> list Operation -> list OperationResult + error.
Variable cfg : Sflow.Config.

Abbreviation RegisterProbe :=
  (RegisterProbe GraphT LookupShortestPath NodePath_Marshal Sprint_node ovs_respond cfg).
Abbreviation RegisterProbeOnBridge := (RegisterProbeOnBridge GraphT ovs_respond cfg).
Abbreviation registerSFlowProbeOnBridge := (registerSFlowProbeOnBridge GraphT ovs_respond).
Abbreviation UnregisterProbe := (UnregisterProbe GraphT ovs_respond).
Abbreviation Handler := (OvsSFlowProbesHandler GraphT).

Implicit Types (o : Handler) (n : Node).

Lemma with_allocator_id o : with_allocator o (allocator o) = o.
Proof. by destruct o. Qed.

(** The three ways [Alloc] ends. *)
Lemma Alloc_cases {P} c uuid (p : P) a :
  (∃ s, Sflow.find_agent uuid (Sflow.allocated a) = Some s
        ∧ Sflow.Alloc c uuid p a = ((Some s, Some AgentAlreadyAllocated), a))
  ∨ (∃ port, Sflow.find_agent uuid (Sflow.allocated a) = None
        ∧ Sflow.allocated a !! port = None
        ∧ Sflow.Alloc c uuid p a =
            ((Some (Sflow.fresh_agent c uuid port p), None),
             {| Sflow.allocated := <[port := Sflow.fresh_agent c uuid port p]> (Sflow.allocated a);
                Sflow.spawned := Sflow.spawned a ++ [port] |}))
  ∨ (Sflow.find_agent uuid (Sflow.allocated a) = None
     ∧ Sflow.Alloc c uuid p a = ((None, Some Sflow.port_exhausted), a)).
Proof.
  unfold Sflow.Alloc. destruct (Sflow.find_agent _ _) as [s|] eqn:Hf.
  - left. by exists s.
  - destruct (Sflow.scan_ports _ _ _) as [i|] eqn:Hs.
    + right; left. exists i. split; [done|]. split; [|done].
      by eapply AllocatorProps.scan_ports_free.
    + by right; right.
Qed.

(** The transactions of the switch leave the allocator and the graph alone,
    and only add to what was sent. *)
Lemma registerSFlowProbeOnBridge_frame o probe u :
  let o' := snd (registerSFlowProbeOnBridge o probe u) in
  allocator o' = allocator o ∧ Graph o' = Graph o
  ∧ ∃ sent, ovsClient o' = ovsClient o ++ sent.
Proof.
  unfold OvsSFlow.registerSFlowProbeOnBridge, retrieveSFlowProbeUUID, Exec. simpl.
  destruct (ovs_respond (ovsClient o) [selectOp]) as [result|e]; simpl.
  - destruct (decide (first_probe_row (probeID u) result ≠ "")); simpl;
      destruct (ovs_respond _ _); simpl;
      (split; [done|]; split; [done|]; rewrite <-app_assoc; by eexists).
  - split; [done|]. split; [done|]. by eexists.
Qed.

Lemma UnregisterSFlowProbeFromBridge_frame o u :
  let o' := snd (UnregisterSFlowProbeFromBridge GraphT ovs_respond o u) in
  allocator o' = allocator o ∧ Graph o' = Graph o
  ∧ ∃ sent, ovsClient o' = ovsClient o ++ sent.
Proof.
  unfold UnregisterSFlowProbeFromBridge, retrieveSFlowProbeUUID, Exec. simpl.
  destruct (ovs_respond (ovsClient o) [selectOp]) as [result|e]; simpl.
  - destruct (decide (first_probe_row (probeID u) result = "")); simpl.
    + split; [done|]. split; [done|]. by eexists.
    + destruct (ovs_respond _ _); simpl;
        (split; [done|]; split; [done|]; rewrite <-app_assoc; by eexists).
  - split; [done|]. split; [done|]. by eexists.
Qed.

(** On a bridge with a path to its host, [RegisterProbe] is
    [RegisterProbeOnBridge] on the bridge's uuid and the serialised path. *)
Lemma RegisterProbe_on_bridge o n u :
  let nodes := LookupShortestPath (Graph o) n host_metadata IsOwnershipEdge in
  isOvsBridge n = true -> nodes ≠ [] -> metadata n !! "UUID" = Some (VString u) ->
  RegisterProbe o n = RegisterProbeOnBridge o u (NodePath_Marshal nodes).
Proof.
  intros nodes Hb Hnodes Hu. unfold OvsSFlow.RegisterProbe. rewrite Hb. fold nodes.
  rewrite decide_False by (by destruct nodes). by rewrite Hu.
Qed.

(** X9. When every port of the range is taken by other bridges,
    [RegisterProbe] on one more bridge returns the error "sflow port
    exhausted", sends nothing to the switch and leaves the handler as it
    was. *)
Theorem RegisterProbe_ports_exhausted o n u
    (Hb : isOvsBridge n = true)
    (Hpath : LookupShortestPath (Graph o) n host_metadata IsOwnershipEdge ≠ [])
    (Hu : metadata n !! "UUID" = Some (VString u))
    (Hc : Sflow.valid_range cfg)
    (Hnew : Sflow.find_agent u (Sflow.allocated (allocator o)) = None)
    (Hfull : ∀ q, Sflow.min_of cfg <= q <= Sflow.max_of cfg ->
               is_Some (Sflow.allocated (allocator o) !! q)) :
  RegisterProbe o n = Returns (Some Sflow.port_exhausted, o).
Proof.
  rewrite (RegisterProbe_on_bridge o n u) by done.
  unfold OvsSFlow.RegisterProbeOnBridge.
  rewrite SflowProps.Alloc_full by done. simpl.
  by rewrite with_allocator_id.
Qed.

(** X10. When the switch refuses the select, [RegisterProbe] and
    [UnregisterProbe] return its error after that single transaction.
    [RegisterProbe] has by then allocated the bridge's agent and spawned its
    task, and they stay: the agent sits on its port, its path setter being
    the probe with the agent's target. *)
Theorem select_refused o n u e
    (Hb : isOvsBridge n = true)
    (Hu : metadata n !! "UUID" = Some (VString u))
    (Hsel : ovs_respond (ovsClient o) [selectOp] = inr e) :
  UnregisterProbe o n = Returns (Some e, with_ovsClient o (ovsClient o ++ [[selectOp]]))
  ∧ ∀ agent a1,
      let nodes := LookupShortestPath (Graph o) n host_metadata IsOwnershipEdge in
      let probe := new_probe u (NodePath_Marshal nodes) in
      nodes ≠ [] ->
      Sflow.Alloc cfg u probe (allocator o) = ((Some agent, None), a1) ->
      ∃ o',
        RegisterProbe o n = Returns (Some e, o')
        ∧ ovsClient o' = ovsClient o ++ [[selectOp]]
        ∧ Sflow.allocated (allocator o') !! Sflow.Port agent
          = Some (Sflow.SetFlowProbePathSetter agent
                    (set_Target probe (Sflow.GetTarget agent)))
        ∧ Sflow.spawned (allocator o')
          = Sflow.spawned (allocator o) ++ [Sflow.Port agent].
Proof.
  split.
  - unfold OvsSFlow.UnregisterProbe. rewrite Hb, Hu. simpl.
    unfold unregisterProbe, UnregisterSFlowProbeFromBridge, retrieveSFlowProbeUUID, Exec.
    by rewrite Hsel.
  - intros agent a1 nodes probe Hnodes Halloc.
    rewrite (RegisterProbe_on_bridge o n u) by done. fold nodes.
    unfold OvsSFlow.RegisterProbeOnBridge. fold probe. rewrite Halloc. simpl.
    unfold OvsSFlow.registerSFlowProbeOnBridge, retrieveSFlowProbeUUID, Exec. simpl.
    rewrite Hsel. eexists. split; [reflexivity|]. simpl.
    destruct (Alloc_cases cfg u probe (allocator o))
      as [(s & _ & Hs)|[(port & _ & _ & Hs)|[_ Hs]]];
      rewrite Hs in Halloc; try done.
    injection Halloc as <- <-. simpl.
    split; [done|]. split; [|done].
    by rewrite lookup_alter_eq, lookup_insert_eq.
Qed.

(** The assignment to [probe.Target] seen through the agent changes neither
    its port nor its uuid. *)
Lemma alias_probe_inv a port probe :
  Sflow.alloc_inv cfg a -> Sflow.alloc_inv cfg (alias_probe a port probe).
Proof.
  intros [Hport Huniq].
  assert (Hback : ∀ q s, Sflow.allocated (alias_probe a port probe) !! q = Some s ->
            ∃ s0, Sflow.allocated a !! q = Some s0
                  ∧ Sflow.Port s = Sflow.Port s0 ∧ Sflow.UUID s = Sflow.UUID s0).
  { intros q s. simpl. rewrite lookup_alter.
    case_decide; [subst q | by eexists].
    destruct (Sflow.allocated a !! port) as [s0|]; simpl; [|done].
    intros [= <-]. by exists s0. }
  split.
  - intros q s (s0 & Hs0 & HP & _)%Hback. rewrite HP. by apply Hport.
  - intros q1 q2 s t (s0 & Hs0 & _ & HU)%Hback (t0 & Ht0 & _ & HU')%Hback Heq.
    eapply Huniq; [done..|congruence].
Qed.

(** X11. [RegisterProbe] keeps the allocator's invariant (each agent on its
    own port inside the range, one agent per uuid), never touches the graph
    and only adds to the transactions sent; [UnregisterProbe] moreover
    leaves the allocator as it is. *)
Theorem handler_keeps_allocator o n e o'
    (Hc : Sflow.valid_range cfg)
    (Hinv : Sflow.alloc_inv cfg (allocator o)) :
  (RegisterProbe o n = Returns (e, o') ->
     Sflow.alloc_inv cfg (allocator o') ∧ Graph o' = Graph o
     ∧ ∃ sent, ovsClient o' = ovsClient o ++ sent)
  ∧ (UnregisterProbe o n = Returns (e, o') ->
     allocator o' = allocator o ∧ Graph o' = Graph o
     ∧ ∃ sent, ovsClient o' = ovsClient o ++ sent).
Proof.
  assert (Hnil : ∃ sent, ovsClient o = ovsClient o ++ sent)
    by (exists []; by rewrite app_nil_r).
  split.
  - unfold OvsSFlow.RegisterProbe. destruct (isOvsBridge n); [|by intros [= <- <-]].
    case_decide; [by intros [= <- <-]|].
    destruct (assert_string _) as [u|]; [|done].
    unfold OvsSFlow.RegisterProbeOnBridge.
    set (probe := new_probe _ _).
    pose proof (SflowProps.alloc_inv_Alloc cfg u probe (allocator o) Hc Hinv) as Hinv1.
    destruct (Sflow.Alloc cfg u probe (allocator o)) as [[agent err] a1]. simpl in Hinv1.
    destruct (bool_decide _ && bool_decide _); [by intros [= <- <-]|].
    destruct agent as [agent|]; [|done].
    set (a2 := match err with None => _ | Some _ => _ end).
    assert (Hinv2 : Sflow.alloc_inv cfg a2)
      by (unfold a2; destruct err; [done | by apply alias_probe_inv]).
    set (probe' := set_Target _ _).
    pose proof (registerSFlowProbeOnBridge_frame (with_allocator o a2) probe' u)
      as (Ha & Hg & Hs).
    destruct (registerSFlowProbeOnBridge _ _ _) as [e' o'']. simpl in *.
    intros [= <- <-]. by rewrite Ha, Hg.
  - unfold OvsSFlow.UnregisterProbe. destruct (isOvsBridge n); [|by intros [= <- <-]].
    destruct (assert_string _) as [u|]; [|done]. unfold unregisterProbe.
    pose proof (UnregisterSFlowProbeFromBridge_frame o u) as H.
    destruct (UnregisterSFlowProbeFromBridge _ _ _ _) as [e' o'']. simpl in H.
    by intros [= <- <-].
Qed.

(** With an agent for the uuid in place, [RegisterProbeOnBridge] goes to the
    switch and leaves the allocator alone. *)
Lemma RegisterProbeOnBridge_found o u path s :
  Sflow.find_agent u (Sflow.allocated (allocator o)) = Some s ->
  ∃ e2 o2, RegisterProbeOnBridge o u path = Returns (e2, o2)
           ∧ allocator o2 = allocator o.
Proof.
  intros Hf. unfold OvsSFlow.RegisterProbeOnBridge, Sflow.Alloc. rewrite Hf. simpl.
  pose proof (registerSFlowProbeOnBridge_frame (with_allocator o (allocator o))
                (set_Target (new_probe u path) (Sflow.GetTarget s)) u) as (Ha & _ & _).
  destruct (registerSFlowProbeOnBridge _ _ _) as [e2 o2]. simpl in Ha.
  by exists e2, o2.
Qed.

(** Once [RegisterProbeOnBridge] has returned, the uuid has its agent, unless
    the ports were exhausted and nothing was done. *)
Lemma RegisterProbeOnBridge_allocates o u path e1 o1 :
  Sflow.valid_range cfg -> Sflow.alloc_inv cfg (allocator o) ->
  RegisterProbeOnBridge o u path = Returns (e1, o1) ->
  is_Some (Sflow.find_agent u (Sflow.allocated (allocator o1))) ∨ o1 = o.
Proof.
  intros Hc Hinv. unfold OvsSFlow.RegisterProbeOnBridge.
  set (probe := new_probe u path).
  pose proof (SflowProps.alloc_inv_Alloc cfg u probe (allocator o) Hc Hinv) as Hinv1.
  destruct (Alloc_cases cfg u probe (allocator o))
    as [(s & Hf & Hs)|[(port & Hf & Hfree & Hs)|[Hf Hs]]];
    rewrite Hs in *; simpl in *.
  - pose proof (registerSFlowProbeOnBridge_frame (with_allocator o (allocator o))
                  (set_Target probe (Sflow.GetTarget s)) u) as (Ha & _ & _).
    destruct (registerSFlowProbeOnBridge _ _ _) as [e' o'']. simpl in Ha.
    intros [= <- <-]. left. rewrite Ha. by eexists.
  - set (s := Sflow.fresh_agent cfg u port probe) in *.
    set (probe' := set_Target probe (Sflow.GetTarget s)).
    set (a1 := Sflow.mkAllocator _ _) in *.
    pose proof (alias_probe_inv a1 port probe' Hinv1) as [_ Huniq].
    pose proof (registerSFlowProbeOnBridge_frame
                  (with_allocator o (alias_probe a1 port probe')) probe' u)
      as (Ha & _ & _).
    destruct (registerSFlowProbeOnBridge _ _ _) as [e' o'']. simpl in Ha.
    intros [= <- <-]. left. rewrite Ha.
    exists (Sflow.SetFlowProbePathSetter s probe').
    eapply SflowProps.find_agent_unique; [exact Huniq | | done].
    simpl. by rewrite lookup_alter_eq, lookup_insert_eq.
  - intros [= <- <-]. right. apply with_allocator_id.
Qed.

(** X12. Registering the probe of a bridge a second time allocates nothing:
    whatever the first call returned, the second call returns too and leaves
    the allocator as the first one left it. *)
Theorem RegisterProbe_again o n u e1 o1
    (Hc : Sflow.valid_range cfg)
    (Hinv : Sflow.alloc_inv cfg (allocator o))
    (Hb : isOvsBridge n = true)
    (Hu : metadata n !! "UUID" = Some (VString u))
    (Hfirst : RegisterProbe o n = Returns (e1, o1)) :
  ∃ e2 o2, RegisterProbe o1 n = Returns (e2, o2) ∧ allocator o2 = allocator o1.
Proof.
  destruct (handler_keeps_allocator o n e1 o1 Hc Hinv) as [Hkeep _].
  destruct (Hkeep Hfirst) as (_ & Hg & _).
  destruct (decide (LookupShortestPath (Graph o) n host_metadata IsOwnershipEdge = []))
    as [Hnil|Hpath].
  - unfold OvsSFlow.RegisterProbe in *. rewrite Hb, ?Hg, Hnil in *. simpl in *.
    injection Hfirst as <- <-. by eexists _, _.
  - rewrite (RegisterProbe_on_bridge o n u) in Hfirst by done.
    rewrite (RegisterProbe_on_bridge o1 n u) by (by rewrite ?Hg). rewrite Hg.
    destruct (RegisterProbeOnBridge_allocates _ _ _ _ _ Hc Hinv Hfirst) as [[s Hs]| ->].
    + by apply (RegisterProbeOnBridge_found o1 u _ s).
    + rewrite Hfirst. by eexists _, _.
Qed.

(** X13. A node typed as a bridge whose [UUID] metadata is missing, or is
    not a string, passes [isOvsBridge]; [UnregisterProbe] then panics on the
    type assertion, and so does [RegisterProbe] once it has found the path
    to the host. *)
Theorem bridge_without_string_uuid o n
    (Htype : metadata n !! "Type" = Some (VString "ovsbridge"))
    (Huuid : ∀ u, metadata n !! "UUID" ≠ Some (VString u)) :
  isOvsBridge n = true
  ∧ (∃ why, UnregisterProbe o n = Panics why)
  ∧ (LookupShortestPath (Graph o) n host_metadata IsOwnershipEdge ≠ [] ->
     ∃ why, RegisterProbe o n = Panics why)
  ∧ (LookupShortestPath (Graph o) n host_metadata IsOwnershipEdge = [] ->
     ∃ e, RegisterProbe o n = Returns (Some e, o)).
Proof.
  assert (Hb : isOvsBridge n = true)
    by (apply OvsSFlowProps.isOvsBridge_true; split; [apply Huuid | done]).
  assert (Hassert : ∃ why, assert_string (metadata n !! "UUID") = Panics why).
  { unfold assert_string. destruct (metadata n !! "UUID") as [[]|] eqn:Hv;
      try by eexists. by destruct (Huuid s). }
  destruct Hassert as [why Hwhy].
  split; [done|]. split_and!.
  - exists why. unfold OvsSFlow.UnregisterProbe. by rewrite Hb, Hwhy.
  - intros Hnodes. exists why. unfold OvsSFlow.RegisterProbe. rewrite Hb.
    rewrite decide_False by (by destruct (LookupShortestPath _ _ _ _)).
    by rewrite Hwhy.
  - intros Hnodes. unfold OvsSFlow.RegisterProbe. rewrite Hb, Hnodes. simpl. by eexists.
Qed.

End Handler.

Lemma empty_allocator_inv :
  Sflow.alloc_inv Sflow.two_ports (allocator handler0).
Proof.
  apply (SflowProps.reachable_inv _ _ SflowProps.valid_two_ports), Sflow.reach_new.
Defined.

Lemma RegisterProbe_ports_exhausted_witness :
  RegisterProbe (gmap string Node) hosts_of marshal_ids Graph.ID (answers [])
    Sflow.two_ports handler_full br0
  = Returns (Some Sflow.port_exhausted, handler_full).
Proof.
  apply (RegisterProbe_ports_exhausted _ _ _ _ _ _ handler_full br0 br0_uuid);
    [reflexivity | discriminate | reflexivity | exact SflowProps.valid_two_ports
    | reflexivity |].
  intros q Hq. change (6345 <= q <= 6346) in Hq.
  destruct (decide (q = 6345)) as [->|]; [by eexists|].
  assert (q = 6346) as -> by lia. by eexists.
Defined.

Lemma select_refused_witness :
  UnregisterProbe (gmap string Node) (refuses Sflow.address_in_use) handler0 br0
  = Returns (Some Sflow.address_in_use, with_ovsClient handler0 [[selectOp]])
  ∧ ∃ o', RegisterProbe (gmap string Node) hosts_of marshal_ids Graph.ID
            (refuses Sflow.address_in_use) Sflow.two_ports handler0 br0
          = Returns (Some Sflow.address_in_use, o')
          ∧ ovsClient o' = [[selectOp]]
          ∧ Sflow.spawned (allocator o') = [6345].
Proof.
  destruct (select_refused (gmap string Node) hosts_of marshal_ids Graph.ID
              (refuses Sflow.address_in_use) Sflow.two_ports handler0 br0 br0_uuid
              Sflow.address_in_use eq_refl eq_refl eq_refl) as [Hun Hreg].
  split; [exact Hun|].
  edestruct Hreg as (o' & Hret & Hsent & _ & Hspawned); [discriminate | reflexivity |].
  exists o'. split; [exact Hret|]. split; [exact Hsent | exact Hspawned].
Defined.

Lemma handler_keeps_allocator_witness :
  ∃ e o',
    RegisterProbe (gmap string Node) hosts_of marshal_ids Graph.ID (answers [])
      Sflow.two_ports handler0 br0 = Returns (e, o')
    ∧ Sflow.alloc_inv Sflow.two_ports (allocator o').
Proof.
  eexists _, _. split; [reflexivity|].
  eapply (proj1 (handler_keeps_allocator (gmap string Node) hosts_of marshal_ids Graph.ID
                   (answers []) Sflow.two_ports handler0 br0 _ _
                   SflowProps.valid_two_ports empty_allocator_inv)).
  reflexivity.
Defined.

Lemma RegisterProbe_again_witness :
  ∃ e1 o1 e2 o2,
    RegisterProbe (gmap string Node) hosts_of marshal_ids Graph.ID (answers [])
      Sflow.two_ports handler0 br0 = Returns (e1, o1)
    ∧ RegisterProbe (gmap string Node) hosts_of marshal_ids Graph.ID (answers [])
        Sflow.two_ports o1 br0 = Returns (e2, o2)
    ∧ allocator o2 = allocator o1.
Proof.
  eexists _, _.
  edestruct (RegisterProbe_again (gmap string Node) hosts_of marshal_ids Graph.ID
               (answers []) Sflow.two_ports handler0 br0 br0_uuid)
    as (e2 & o2 & Hsecond & Hsame);
    [exact SflowProps.valid_two_ports | exact empty_allocator_inv
    | reflexivity | reflexivity | reflexivity |].
  exists e2, o2. split; [reflexivity|]. split; [exact Hsecond | exact Hsame].
Defined.

Lemma bridge_without_string_uuid_witness :
  isOvsBridge br_without_uuid = true
  ∧ ∃ why, UnregisterProbe (gmap string Node) (answers []) handler0 br_without_uuid
           = Panics why.
Proof.
  destruct (bridge_without_string_uuid (gmap string Node) hosts_of marshal_ids Graph.ID
              (answers []) Sflow.two_ports handler0 br_without_uuid eq_refl)
    as (Hb & Hun & _); [intros u; discriminate|].
  split; [exact Hb | exact Hun].
Defined.

End HandlerProps.

(** ** More on the probe-path cache *)
Module CacheProps.

Import Graph OvsSFlowCache.

Section Handler.

Variable GraphT : Type.
Variable LookupNodes : GraphT -> Metadata -> list Node.
Variable LookupShortestPath : GraphT -> Node -> Metadata -> EdgePredicate -> list Node.
Variable NodePath_Marshal : list Node -> string.

Abbreviation lookupForProbePath :=
  (lookupForProbePath GraphT LookupNodes LookupShortestPath NodePath_Marshal).
Abbreviation cacheUpdater_step :=
  (cacheUpdater_step GraphT LookupNodes LookupShortestPath NodePath_Marshal).
Abbreviation cacheUpdater :=
  (cacheUpdater GraphT LookupNodes LookupShortestPath NodePath_Marshal).
Abbreviation GetProbePath := (GetProbePath GraphT).

Implicit Types (o : OvsSFlowProbesHandler GraphT) (index : Z).

(** The lookup reads the graph only. *)
Lemma lookupForProbePath_graph o o' index :
  Graph o' = Graph o -> lookupForProbePath o' index = lookupForProbePath o index.
Proof. unfold OvsSFlowCache.lookupForProbePath. by intros ->. Qed.

(** X14. [GetProbePath] never writes to the cache or the graph and keeps
    the channel within its capacity.  A path that is not empty was read from
    the cache, with nothing sent; a call that is suspended found the channel
    full and has changed nothing. *)
Theorem GetProbePath_frame o index
    (Hcap : (length (cacheUpdaterChan o) <= chan_capacity)%nat) :
  match GetProbePath o index with
  | Returned path o' =>
      Graph o' = Graph o ∧ cache o' = cache o
      ∧ (length (cacheUpdaterChan o') <= chan_capacity)%nat
      ∧ (path ≠ "" -> o' = o ∧ cache o !! FormatInt10 index = Some path)
  | BlockedOnSend i o' =>
      o' = o ∧ i = index ∧ length (cacheUpdaterChan o) = chan_capacity
  end.
Proof.
  unfold OvsSFlowCache.GetProbePath, chan_send.
  destruct (cache o !! FormatInt10 index) as [path|] eqn:Hc; [done|].
  case_decide; simpl.
  - rewrite length_app. simpl. split_and!; [done | done | lia | done].
  - split_and!; [done | done | lia].
Qed.

(** X15. One turn of the updater takes the oldest request off the channel,
    leaves the graph alone and writes at most the key of the index it
    received: the cached paths of all other indexes are as they were. *)
Theorem cacheUpdater_step_other_index o o1 index rest j
    (Hchan : cacheUpdaterChan o = index :: rest)
    (Hstep : cacheUpdater_step o = Some o1)
    (Hj : j ≠ index) :
  cacheUpdaterChan o1 = rest ∧ Graph o1 = Graph o
  ∧ cache o1 !! FormatInt10 j = cache o !! FormatInt10 j.
Proof.
  revert Hstep. unfold OvsSFlowCache.cacheUpdater_step. rewrite Hchan. simpl.
  intros [= <-]. simpl. split; [done|]. split; [done|].
  case_decide; [|done]. rewrite lookup_insert_ne; [done|].
  unfold FormatInt10. intros Heq%(inj pretty). congruence.
Qed.

(** X16. A lookup that finds no path is not cached: the turn of the updater
    leaves the cache as it was, so the next [GetProbePath] for that index
    misses again and sends the request again. *)
Theorem failed_lookup_is_retried o index rest
    (Hcap : (length (cacheUpdaterChan o) <= chan_capacity)%nat)
    (Hchan : cacheUpdaterChan o = index :: rest)
    (Hmiss : cache o !! FormatInt10 index = None)
    (Hnone : lookupForProbePath o index = "") :
  ∃ o1, cacheUpdater_step o = Some o1
        ∧ cache o1 = cache o
        ∧ GetProbePath o1 index = Returned "" (enqueued o1 index)
        ∧ cacheUpdaterChan (enqueued o1 index) = rest ++ [index].
Proof.
  unfold OvsSFlowCache.cacheUpdater_step. rewrite Hchan in *. simpl in *.
  rewrite Hnone. simpl. eexists. split; [reflexivity|]. simpl. split; [done|].
  split; [|done].
  unfold OvsSFlowCache.GetProbePath. simpl. rewrite Hmiss.
  unfold chan_send. simpl. by rewrite decide_True by lia.
Qed.

(** After as many turns as there are requests, the last request has been
    served and the channel is empty. *)
Lemma cacheUpdater_serves_last o pre index path :
  cacheUpdaterChan o = pre ++ [index] ->
  lookupForProbePath o index = path -> path ≠ "" ->
  let o2 := cacheUpdater (S (length pre)) o in
  cache o2 !! FormatInt10 index = Some path
  ∧ cacheUpdaterChan o2 = [] ∧ Graph o2 = Graph o.
Proof.
  revert o. induction pre as [|i pre IH]; intros o Hchan Hpath Hne.
  - simpl in *. unfold OvsSFlowCache.cacheUpdater_step. rewrite Hchan. simpl.
    fold (lookupForProbePath o index). rewrite Hpath.
    rewrite decide_True by done. simpl. by rewrite lookup_insert_eq.
  - change (cacheUpdater (S (length (i :: pre))) o)
      with (match cacheUpdater_step o with
            | Some o1 => cacheUpdater (S (length pre)) o1
            | None => o
            end).
    unfold OvsSFlowCache.cacheUpdater_step at 1. rewrite Hchan. simpl.
    set (o1 := OvsSFlowCache.mkHandler _ _ _ _).
    destruct (IH o1) as (Hc & Hq & Hg); [done | | done |].
    + rewrite <-Hpath. by apply lookupForProbePath_graph.
    + by split_and!.
Qed.

(** X17. A miss is repaired by the updater: when the graph has a path for
    the index, then after the request of a missed [GetProbePath] and the
    requests queued before it have been served, [GetProbePath] returns that
    path from the cache and sends nothing. *)
Theorem miss_then_hit o index path
    (Hmiss : cache o !! FormatInt10 index = None)
    (Hroom : (length (cacheUpdaterChan o) < chan_capacity)%nat)
    (Hpath : lookupForProbePath o index = path)
    (Hne : path ≠ "") :
  GetProbePath o index = Returned "" (enqueued o index)
  ∧ let o2 := cacheUpdater (S (length (cacheUpdaterChan o))) (enqueued o index) in
    GetProbePath o2 index = Returned path o2 ∧ cacheUpdaterChan o2 = [].
Proof.
  split.
  - unfold OvsSFlowCache.GetProbePath, chan_send. rewrite Hmiss.
    by rewrite decide_True.
  - destruct (cacheUpdater_serves_last (enqueued o index) (cacheUpdaterChan o) index path)
      as (Hc & Hq & _); [done | done | done |].
    split; [|done]. unfold OvsSFlowCache.GetProbePath. by rewrite Hc.
Qed.

Lemma first_probe_path_source g intfs p :
  first_probe_path GraphT LookupShortestPath NodePath_Marshal g intfs = p ->
  p = "" ∨ ∃ intf bridge,
    intf ∈ intfs
    ∧ last (LookupShortestPath g intf {["Type" := VString "ovsbridge"]} IsLayer2Edge)
      = Some bridge
    ∧ LookupShortestPath g bridge {["Type" := VString "host"]} IsOwnershipEdge ≠ []
    ∧ p = NodePath_Marshal
            (LookupShortestPath g bridge {["Type" := VString "host"]} IsOwnershipEdge).
Proof.
  induction intfs as [|intf rest IH]; simpl; [by left|].
  destruct (last _) as [bridge|] eqn:Hlast.
  - case_decide as Hlen.
    + intros [?|(i & b & ? & ?)]%IH; [by left|]. right. exists i, b.
      split; [by apply list_elem_of_further | done].
    + intros <-. right. exists intf, bridge.
      split; [apply list_elem_of_here|]. split; [done|]. split; [|done].
      intros Hnil. by rewrite Hnil in Hlen.
  - intros [?|(i & b & ? & ?)]%IH; [by left|]. right. exists i, b.
    split; [by apply list_elem_of_further | done].
Qed.

(** X18. The path [lookupForProbePath] returns is empty, in particular when
    no node has the interface index, or it is the serialised ownership path
    from a bridge to its host, the bridge being the end of the layer-2 path
    of one of the interfaces that have the index. *)
Theorem lookupForProbePath_source o index :
  (LookupNodes (Graph o) {["IfIndex" := VNum KInt64 index]} = [] ->
     lookupForProbePath o index = "")
  ∧ (lookupForProbePath o index ≠ "" ->
     ∃ intf bridge,
       intf ∈ LookupNodes (Graph o) {["IfIndex" := VNum KInt64 index]}
       ∧ last (LookupShortestPath (Graph o) intf {["Type" := VString "ovsbridge"]}
                 IsLayer2Edge) = Some bridge
       ∧ LookupShortestPath (Graph o) bridge {["Type" := VString "host"]}
           IsOwnershipEdge ≠ []
       ∧ lookupForProbePath o index
         = NodePath_Marshal
             (LookupShortestPath (Graph o) bridge {["Type" := VString "host"]}
                IsOwnershipEdge)).
Proof.
  unfold OvsSFlowCache.lookupForProbePath. split.
  - by intros ->.
  - intros Hne.
    by destruct (first_probe_path_source (Graph o)
                   (LookupNodes (Graph o) {["IfIndex" := VNum KInt64 index]}) _ eq_refl)
      as [?|?].
Qed.

End Handler.

Lemma GetProbePath_frame_witness :
  GetProbePath unit waiting_handler 7 = Returned "" (enqueued waiting_handler 7)
  ∧ cache (enqueued waiting_handler 7) = cache waiting_handler.
Proof.
  pose proof (GetProbePath_frame unit waiting_handler 7) as H.
  change (GetProbePath unit waiting_handler 7)
    with (Returned "" (enqueued waiting_handler 7)) in H.
  split; [reflexivity|]. apply H. vm_compute. lia.
Defined.

Lemma cacheUpdater_step_other_index_witness :
  let o1 := {| Graph := tt; cache := ∅; cacheUpdaterChan := [7] |} in
  cacheUpdater_step unit if7_nodes if7_path OvsSFlow.marshal_ids waiting_handler = Some o1
  ∧ cache o1 !! FormatInt10 7 = cache waiting_handler !! FormatInt10 7.
Proof.
  intros o1. split; [reflexivity|].
  apply (cacheUpdater_step_other_index unit if7_nodes if7_path OvsSFlow.marshal_ids
           waiting_handler o1 3 [7] 7); [reflexivity | reflexivity | lia].
Defined.

Lemma failed_lookup_is_retried_witness :
  ∃ o1, cacheUpdater_step unit if7_nodes if7_path OvsSFlow.marshal_ids waiting_handler
        = Some o1
        ∧ cache o1 = cache waiting_handler
        ∧ GetProbePath unit o1 3 = Returned "" (enqueued o1 3).
Proof.
  edestruct (failed_lookup_is_retried unit if7_nodes if7_path OvsSFlow.marshal_ids
               waiting_handler 3 [7]) as (o1 & Hstep & Hc & Hget & _);
    [vm_compute; lia | reflexivity | reflexivity | reflexivity |].
  exists o1. split; [exact Hstep|]. split; [exact Hc | exact Hget].
Defined.

Lemma miss_then_hit_witness :
  let o2 := cacheUpdater unit if7_nodes if7_path OvsSFlow.marshal_ids 3
              (enqueued waiting_handler 7) in
  GetProbePath unit waiting_handler 7 = Returned "" (enqueued waiting_handler 7)
  ∧ GetProbePath unit o2 7 = Returned "host0/br0" o2.
Proof.
  intros o2.
  destruct (miss_then_hit unit if7_nodes if7_path OvsSFlow.marshal_ids
              waiting_handler 7 "host0/br0") as (Hmiss & Hhit & _);
    [reflexivity | vm_compute; lia | reflexivity | discriminate |].
  split; [exact Hmiss | exact Hhit].
Defined.

End CacheProps.

(** ** More on the alert engine *)
Module EngineProps.

Import Graph Alert.

Lemma list_ascii_of_string_app (s t : string) :
  list_ascii_of_string (s +:+ t) = list_ascii_of_string s ++ list_ascii_of_string t.
Proof. induction s as [|c s IH]; simpl; [done | by rewrite IH]. Qed.

Lemma until_slash_app l r :
  Forall (λ c, c ≠ "/"%char) l -> until_slash (l ++ "/"%char :: r) = l.
Proof.
  induction 1 as [|c l Hc _ IH]; simpl; [done|].
  destruct (Ascii.eqb_spec c "/"%char) as [->|_]; [done | by rewrite IH].
Qed.

Lemma strip_trailing_slashes_id c l :
  c ≠ "/"%char -> strip_trailing_slashes (c :: l) = c :: l.
Proof. intros Hc. simpl. by destruct (Ascii.eqb_spec c "/"%char). Qed.

(** [path.Base] of a key directly under [/alert/]. *)
Lemma path_Base_alert (s : string) :
  s ≠ "" -> Forall (λ c, c ≠ "/"%char) (list_ascii_of_string s) ->
  path_Base ("/alert/" +:+ s) = s.
Proof.
  intros Hs Hno. unfold path_Base. rewrite decide_False by done.
  rewrite list_ascii_of_string_app, rev_app_distr.
  assert (Hrev : Forall (λ c, c ≠ "/"%char) (rev (list_ascii_of_string s)))
    by (by apply Forall_rev).
  destruct (rev (list_ascii_of_string s)) as [|c l] eqn:Hl.
  { apply (f_equal (@rev _)) in Hl. rewrite rev_involutive in Hl.
    apply (f_equal string_of_list_ascii) in Hl.
    rewrite string_of_list_ascii_of_string in Hl. by destruct Hs. }
  assert (Hc : c ≠ "/"%char) by (by inversion Hrev).
  rewrite <-app_comm_cons, (strip_trailing_slashes_id c) by done.
  rewrite app_comm_cons.
  change (rev (list_ascii_of_string "/alert/"))
    with ("/"%char :: rev (list_ascii_of_string "/alert")).
  rewrite until_slash_app by done.
  rewrite <-Hl, rev_involutive, string_of_list_ascii_of_string.
  by rewrite decide_False.
Qed.

Lemma alnum_not_slash c : Gouuid.is_lower_alnum c = true -> c ≠ "/"%char.
Proof. intros H ->. by vm_compute in H. Qed.

Lemma hex_bytes_no_slash bs : Forall (λ c, c ≠ "/"%char) (Gouuid.hex_bytes bs).
Proof.
  pose proof (GouuidProps.hex_bytes_alnum bs) as H.
  rewrite forallb_forall in H. apply Forall_forall. intros c Hc.
  apply alnum_not_slash, H. by apply list_elem_of_In.
Qed.

(** A printed identifier has no slash and is not empty. *)
Lemma UUID_String_segment (id : UUID) :
  UUID_String id ≠ ""
  ∧ Forall (λ c, c ≠ "/"%char) (list_ascii_of_string (UUID_String id)).
Proof.
  unfold UUID_String, Gouuid.String.
  rewrite list_ascii_of_string_of_list_ascii. unfold Gouuid.String_chars. split.
  - intros Heq. apply (f_equal list_ascii_of_string) in Heq.
    rewrite list_ascii_of_string_of_list_ascii in Heq. simpl in Heq.
    by destruct (Gouuid.hex_bytes (take 4 id)).
  - repeat (apply Forall_app; split; [apply hex_bytes_no_slash|];
            apply Forall_cons; split; [done|]).
    apply hex_bytes_no_slash.
Qed.

(** X19. The key of a rule leads back to its identifier: the last segment
    of [etcdPath id] is the printed identifier, whatever [id] is, and for an
    identifier the parser accepts it parses to [id], as the watcher does on
    delete and expire. *)
Theorem etcdPath_roundtrip (id : UUID) :
  path_Base (etcdPath id) = UUID_String id
  ∧ (Gouuid.valid id -> Gouuid.ParseHex (path_Base (etcdPath id)) = Some id).
Proof.
  destruct (UUID_String_segment id) as [Hne Hno].
  assert (Hbase : path_Base (etcdPath id) = UUID_String id)
    by (by apply path_Base_alert).
  split; [done|]. intros Hvalid. rewrite Hbase.
  by apply GouuidProps.ParseHex_String.
Qed.

(** X20. [UnmarshalJSON] does not look at the first and the last byte:
    whatever they are, the bytes between them are parsed, and what it
    returns is what the parser returns, the identifier or the parser's own
    error; and it panics on fewer than two bytes. *)
Theorem UnmarshalJSON_delimiters (c1 c2 : ascii) (s : string) :
  UnmarshalJSON (String.String c1 (s +:+ String.String c2 ""))
  = Returns (Gouuid.ParseHexE s)
  ∧ UnmarshalJSON "" = Panics "slice bounds out of range"
  ∧ UnmarshalJSON (String.String c1 "") = Panics "slice bounds out of range".
Proof.
  split; [|done]. unfold UnmarshalJSON.
  cbn [String.length]. rewrite AlertProps.length_append.
  change (String.length (String.String c2 "")) with 1%nat.
  rewrite decide_False by lia.
  cbn [substring].
  replace (S (String.length s + 1) - 2)%nat with (String.length s) by lia.
  rewrite AlertProps.substring_prefix. by destruct (Gouuid.ParseHexE s).
Qed.

Section Manager.

Variable GraphT : Type.
Variable LookupNodesFromKey : GraphT -> string -> list Node.
Variable json_Unmarshal : string -> Decoded.
Variable eval_run : gmap string (option (EvalType * Value)) -> string -> option string.
Variable Listener : Type.
Context `{EqDecision Listener}.

Abbreviation Manager := (AlertManager GraphT Listener).
Abbreviation EvalNodes := (EvalNodes GraphT LookupNodesFromKey eval_run Listener).
Abbreviation eval_node := (eval_node eval_run).
Abbreviation eval_nodes := (eval_nodes eval_run).
Abbreviation eval_rules := (eval_rules GraphT LookupNodesFromKey eval_run).
Abbreviation watcher := (watcher GraphT json_Unmarshal Listener).
Abbreviation watcher_turn := (watcher_turn GraphT json_Unmarshal Listener).
Abbreviation SetAlertTest := (SetAlertTest GraphT Listener).
Abbreviation DeleteAlertTest := (DeleteAlertTest GraphT Listener).
Abbreviation Get := (Get GraphT Listener).
Abbreviation well_keyed := (well_keyed GraphT Listener).

Implicit Types (a : Manager) (resp : Response) (al : AlertTest).

(** X21. What [SetAlertTest] stores is found by [Get] under the printed
    identifier, for an identifier the parser accepts; [DeleteAlertTest] of
    that identifier then gives back the rules as they were when the
    identifier was not in use, and reports "Not found" the second time. *)
Theorem Set_Get_Delete a al id
    (Hid : UUID_ al = Some id) (Hvalid : Gouuid.valid id) :
  ∃ a', SetAlertTest a al = Returns a'
        ∧ Get a' (UUID_String id) = Some al
        ∧ (alerts a !! id = None -> DeleteAlertTest a' id = (None, a))
        ∧ DeleteAlertTest (snd (DeleteAlertTest a' id)) id
          = (Some (errors_New "Not found"), snd (DeleteAlertTest a' id)).
Proof.
  unfold Alert.SetAlertTest. rewrite Hid. eexists. split; [reflexivity|]. split_and!.
  - unfold Alert.Get, UUID_String. rewrite GouuidProps.ParseHex_String by done.
    simpl. by rewrite lookup_insert_eq.
  - intros Hfree. unfold Alert.DeleteAlertTest. destruct a as [g m ls]. simpl in *.
    rewrite lookup_insert_eq. unfold with_alerts. simpl.
    by rewrite delete_insert_eq, delete_id.
  - unfold Alert.DeleteAlertTest at 2 3. simpl. rewrite lookup_insert_eq. simpl.
    unfold Alert.DeleteAlertTest. simpl. by rewrite lookup_delete_eq.
Qed.

Lemma watcher_app a evs1 evs2 :
  watcher a (evs1 ++ evs2)
  = match watcher a evs1 with
    | Continue a' => watcher a' evs2
    | w => w
    end.
Proof.
  revert a. induction evs1 as [|ev evs1 IH]; intros a; [done|].
  rewrite <-app_comm_cons, !AlertProps.watcher_cons.
  destruct (Alert.watcher_turn _ _ _ a ev); [apply IH | done | done].
Qed.

Lemma watcher_turn_not_acted_on a resp :
  acted_on (inl resp) = false -> watcher_turn a (inl resp) = Continue a.
Proof.
  unfold acted_on, Alert.watcher_turn.
  destruct (Dir (EvNode resp)); [done|]. simpl.
  intros Hout%bool_decide_eq_false.
  rewrite !not_elem_of_cons in Hout. destruct Hout as (?&?&?&?&?&_).
  unfold is_upsert, is_removal.
  by rewrite !bool_decide_eq_false_2.
Qed.

(** X22. The watcher acts only on the events of nodes that are no
    directories with one of the actions create, set, update, expire and
    delete: taking the other events out of what the store delivers changes
    nothing; and the first error the store's watcher reports ends the task,
    whatever was to follow. *)
Theorem watcher_acts_on a evs1 evs2 e :
  watcher a evs1 = watcher a (List.filter acted_on evs1)
  ∧ watcher a (evs1 ++ inr e :: evs2)
    = match watcher a evs1 with
      | Continue _ => Return_
      | w => w
      end.
Proof.
  split.
  - revert a. induction evs1 as [|ev evs1 IH]; intros a; [done|].
    cbn [List.filter]. destruct (acted_on ev) eqn:Hev.
    + rewrite !AlertProps.watcher_cons.
      destruct (Alert.watcher_turn _ _ _ a ev); [apply IH | done | done].
    + destruct ev as [resp|?]; [|done].
      rewrite AlertProps.watcher_cons, watcher_turn_not_acted_on by done.
      apply IH.
  - rewrite watcher_app. by destruct (watcher a evs1).
Qed.

(** X23. An event delivered twice in a row has the effect of one delivery. *)
Theorem watcher_duplicate a ev : watcher a [ev; ev] = watcher a [ev].
Proof.
  cbn [Alert.watcher]. unfold Alert.watcher_turn.
  destruct ev as [resp|e]; [|done].
  destruct (Dir (EvNode resp)); [done|].
  destruct (is_upsert (EvAction resp)).
  - destruct (alertTestFromData _ _) as [[al|]|]; [|done..].
    unfold Alert.SetAlertTest. destruct (UUID_ al) as [id|]; [|done].
    simpl. by rewrite insert_insert_eq.
  - destruct (is_removal (EvAction resp)); [|done].
    destruct (Gouuid.ParseHex _) as [id|]; [|done].
    rewrite !AlertProps.DeleteAlertTest_delete. simpl.
    by rewrite delete_delete_eq.
Qed.

Lemma eval_node_cases now al n al' msgs :
  eval_node now al n = Returns (al', msgs) ->
  (al' = al ∧ msgs = [])
  ∨ (∃ uid, UUID_ al = Some uid
        ∧ al' = set_Count al (wrap_int (Count al + 1))
        ∧ msgs = [ {| msg_UUID := uid; msg_Type := FIXED; msg_Timestamp := now;
                       msg_Count := wrap_int (Count al + 1);
                       msg_Reason := Action al; msg_ReasonData := n |} ]).
Proof.
  unfold Alert.eval_node. destruct (eval_run _ _) as [ret|]; [|by intros [= <- <-]; left].
  case_decide; [|by intros [= <- <-]; left]. simpl.
  destruct (UUID_ al) as [uid|]; [|done].
  intros [= <- <-]. right. by exists uid.
Qed.

(** X24. The messages one rule sends in one evaluation are numbered from
    its stored count onwards, one by one; each carries the rule's identifier
    and action, the type FIXED whatever the type of the rule, and one of the
    candidate nodes; the count of the loop's copy ends where the last
    message ended. *)
Theorem eval_nodes_numbering now al nodes al' msgs
    (Hlo : int_min <= Count al)
    (Hhi : Count al + Z.of_nat (length nodes) <= int_max)
    (Hret : eval_nodes now al nodes = Returns (al', msgs)) :
  Count al' = Count al + Z.of_nat (length msgs)
  ∧ msg_Count <$> msgs = (λ k, Count al + k) <$> seqZ 1 (Z.of_nat (length msgs))
  ∧ (length msgs <= length nodes)%nat
  ∧ Forall (λ m, Some (msg_UUID m) = UUID_ al ∧ msg_Type m = FIXED
                 ∧ msg_Reason m = Action al ∧ msg_Timestamp m = now
                 ∧ msg_ReasonData m ∈ nodes) msgs.
Proof.
  revert al msgs Hlo Hhi Hret. induction nodes as [|n nodes IH]; intros al msgs Hlo Hhi.
  - simpl. intros [= <- <-]. simpl. rewrite Z.add_0_r. by split_and!.
  - cbn [Alert.eval_nodes].
    destruct (eval_node now al n) as [[al1 msgs1]|] eqn:Hn; [|done].
    destruct (eval_nodes now al1 nodes) as [[al2 msgs2]|] eqn:Hrest; [|done].
    intros [= <- <-]. simpl length in Hhi.
    apply eval_node_cases in Hn as [[-> ->]|(uid & Huid & -> & ->)].
    + destruct (IH al msgs2) as (Hc & Hs & Hl & Hf); [done | lia | done |].
      simpl. split_and!; [done | done | lia |].
      eapply Forall_impl; [exact Hf|]. simpl. intros m (?&?&?&?&?).
      split_and!; try done. by apply list_elem_of_further.
    + assert (Hw : wrap_int (Count al + 1) = Count al + 1)
        by (apply SflowProps.wrap_int_id; unfold in_int, int_min, int_max in *; lia).
      rewrite Hw in *.
      destruct (IH (set_Count al (Count al + 1)) msgs2)
        as (Hc & Hs & Hl & Hf); [simpl; lia | simpl; lia | done |].
      simpl in Hc, Hs, Hf. simpl length.
      split_and!.
      * rewrite Hc. lia.
      * rewrite Nat2Z.inj_succ, <-Z.add_1_l.
        rewrite seqZ_app by lia. rewrite fmap_app. simpl.
        change (seqZ 1 1) with [1]. simpl. f_equal. rewrite Hs.
        rewrite <-(fmap_add_seqZ 1 1), <-list_fmap_compose.
        apply list_fmap_ext. intros ? k ?. simpl. lia.
      * lia.
      * apply Forall_cons. split.
        -- simpl. split_and!; try done. apply list_elem_of_here.
        -- eapply Forall_impl; [exact Hf|]. simpl. intros m (?&?&?&?&?).
           split_and!; try done. by apply list_elem_of_further.
Qed.

Lemma eval_nodes_returns now al nodes uid :
  UUID_ al = Some uid ->
  ∃ al' msgs, eval_nodes now al nodes = Returns (al', msgs) ∧ UUID_ al' = Some uid.
Proof.
  revert al. induction nodes as [|n nodes IH]; intros al Hid; simpl; [by eexists _, _|].
  unfold Alert.eval_node. destruct (eval_run _ _) as [ret|].
  - case_decide; simpl.
    + rewrite Hid.
      destruct (IH (set_Count al (wrap_int (Count al + 1))) Hid) as (al' & msgs & -> & ?).
      by eexists _, _.
    + destruct (IH al Hid) as (al' & msgs & -> & ?). by eexists _, _.
  - destruct (IH al Hid) as (al' & msgs & -> & ?). by eexists _, _.
Qed.

Lemma eval_rules_returns now g rules :
  Forall (λ al, is_Some (UUID_ al)) rules ->
  ∃ msgs, eval_rules now g rules = Returns msgs.
Proof.
  induction 1 as [|al rules [uid Hid] _ [msgs IH]]; simpl; [by eexists|].
  destruct (eval_nodes_returns now al (LookupNodesFromKey g (Select al)) uid Hid)
    as (al' & msgs1 & -> & _).
  rewrite IH. by eexists.
Qed.

Lemma watcher_turn_well_keyed a ev a' :
  well_keyed a -> watcher_turn a ev = Continue a' -> well_keyed a'.
Proof.
  intros Hk. unfold Alert.watcher_turn.
  destruct ev as [resp|e]; [|done].
  destruct (Dir (EvNode resp)); [by intros [= <-]|].
  destruct (is_upsert (EvAction resp)).
  - destruct (alertTestFromData _ _) as [[al|]|]; [|by intros [= <-]|done].
    unfold Alert.SetAlertTest. destruct (UUID_ al) as [id|] eqn:Hid; [|done].
    intros [= <-] k at_. simpl. rewrite lookup_insert.
    case_decide; [intros [= <-]; congruence | apply Hk].
  - destruct (is_removal (EvAction resp)); [|by intros [= <-]].
    destruct (Gouuid.ParseHex _) as [id|]; [|by intros [= <-]].
    rewrite AlertProps.DeleteAlertTest_delete. intros [= <-] k at_. simpl.
    intros [_ ?]%lookup_delete_Some. by apply Hk.
Qed.

(** X25. Every rule is stored under its own identifier: the watcher keeps
    this, whatever events it is given, and while it holds [EvalNodes] never
    panics: it returns the manager as it is, with the messages and the
    calls of the listeners. *)
Theorem well_keyed_kept a (Hk : well_keyed a) :
  (∀ evs a', watcher a evs = Continue a' -> well_keyed a')
  ∧ (∀ now, ∃ msgs,
       EvalNodes now a = Returns (a, msgs, fan_out Listener (eventListeners a) msgs)).
Proof.
  split.
  - intros evs. revert a Hk. induction evs as [|ev evs IH]; intros a Hk a'; simpl.
    + by intros [= <-].
    + destruct (watcher_turn a ev) as [a1| |] eqn:Hturn; [|done..].
      apply IH. by eapply watcher_turn_well_keyed.
  - intros now. unfold Alert.EvalNodes.
    destruct (eval_rules_returns now (Graph a) (snd <$> map_to_list (alerts a)))
      as [msgs ->]; [|by eexists].
    apply Forall_fmap, Forall_forall. intros [k al] Hin%elem_of_map_to_list.
    simpl. rewrite (Hk k al Hin). by eexists.
Qed.

Lemma fan_out_cons (ls : list Listener) m msgs :
  fan_out Listener ls (m :: msgs) = ((λ l, (l, m)) <$> ls) ++ fan_out Listener ls msgs.
Proof. done. Qed.

Lemma filter_listener (ls : list Listener) l (m : AlertMessage) :
  filter (λ c : Listener * AlertMessage, c.1 = l) ((λ l', (l', m)) <$> ls)
  = (λ l', (l', m)) <$> filter (λ l', l' = l) ls.
Proof.
  induction ls as [|l' ls IH]; [done|].
  rewrite fmap_cons, !filter_cons. simpl. case_decide; by rewrite IH.
Qed.

Lemma filter_eq_NoDup (ls : list Listener) l :
  NoDup ls -> filter (λ l', l' = l) ls = if decide (l ∈ ls) then [l] else [].
Proof.
  induction 1 as [|l' ls Hnotin Hnd IH]; [done|].
  rewrite filter_cons, IH. destruct (decide (l' = l)) as [->|Hne].
  - rewrite (decide_True (P := l ∈ l :: ls)) by apply list_elem_of_here.
    by rewrite decide_False.
  - destruct (decide (l ∈ ls)) as [Hin|Hout].
    + by rewrite decide_True by (by apply list_elem_of_further).
    + rewrite decide_False; [done|]. rewrite not_elem_of_cons. by split.
Qed.

(** What one listener is called with. *)
Lemma fan_out_listener (ls : list Listener) l msgs :
  NoDup ls ->
  snd <$> filter (λ c : Listener * AlertMessage, c.1 = l) (fan_out Listener ls msgs)
  = if decide (l ∈ ls) then msgs else [].
Proof.
  intros Hnd. induction msgs as [|m msgs IH]; [by case_decide|].
  rewrite fan_out_cons, filter_app, fmap_app, IH, filter_listener, filter_eq_NoDup by done.
  by case_decide.
Qed.

(** X26. The listeners form a set: a listener added twice is called once
    for each message, in the order of the messages, and a listener that was
    deleted is not called at all. *)
Theorem listeners_form_a_set a l msgs (Hnd : NoDup (eventListeners a)) :
  let a1 := AddEventListener GraphT Listener (AddEventListener GraphT Listener a l) l in
  let a2 := DelEventListener GraphT Listener a1 l in
  NoDup (eventListeners a1) ∧ NoDup (eventListeners a2)
  ∧ snd <$> filter (λ c : Listener * AlertMessage, c.1 = l)
              (fan_out Listener (eventListeners a1) msgs) = msgs
  ∧ filter (λ c : Listener * AlertMessage, c.1 = l)
      (fan_out Listener (eventListeners a2) msgs) = [].
Proof.
  intros a1 a2.
  assert (Hin1 : l ∈ eventListeners (AddEventListener GraphT Listener a l)).
  { simpl. case_decide; [done|]. apply elem_of_app. right. apply list_elem_of_here. }
  assert (Hnd0 : NoDup (eventListeners (AddEventListener GraphT Listener a l))).
  { simpl. case_decide as Hl; [done|]. apply NoDup_app. split; [done|].
    split; [|apply NoDup_singleton].
    intros x Hx ->%list_elem_of_singleton. done. }
  assert (Ha1 : eventListeners a1 = eventListeners (AddEventListener GraphT Listener a l))
    by (unfold a1; simpl; by rewrite decide_True).
  assert (Ha2 : eventListeners a2
                = List.filter (λ l', bool_decide (l' ≠ l)) (eventListeners a1))
    by reflexivity.
  assert (Hnd2 : NoDup (eventListeners a2)).
  { rewrite Ha2, Ha1.
    apply NoDup_ListNoDup, List.NoDup_filter, NoDup_ListNoDup, Hnd0. }
  assert (Hout : l ∉ eventListeners a2).
  { rewrite Ha2, list_elem_of_In, filter_In.
    intros [_ Hne%bool_decide_eq_true]. done. }
  split_and!.
  - by rewrite Ha1.
  - done.
  - rewrite fan_out_listener by (by rewrite Ha1).
    rewrite Ha1. by rewrite decide_True.
  - pose proof (fan_out_listener (eventListeners a2) l msgs Hnd2) as H.
    rewrite decide_False in H by done. by apply fmap_nil_inv in H.
Qed.

End Manager.

Section Api.

Variable GraphT : Type.
Variable json_Unmarshal : string -> Decoded.
Variable Listener : Type.
Variable uuid_NewV4 : UUID + error.
Variable json_Marshal : AlertTest -> string + error.
Variable etcd_respond : list EtcdRequest -> EtcdRequest -> option error.

Abbreviation Create := (Create uuid_NewV4 json_Marshal etcd_respond).
Abbreviation Delete := (Delete etcd_respond).
Abbreviation watcher := (watcher GraphT json_Unmarshal Listener).

Implicit Types (a : AlertManager GraphT Listener) (al : AlertTest).

Lemma watcher_single a ev :
  watcher a [ev] = Alert.watcher_turn GraphT json_Unmarshal Listener a ev.
Proof. cbn [Alert.watcher]. by destruct (Alert.watcher_turn _ _ _ _ _). Qed.

(** X27. [Create] keeps of the caller's rule the name, the description and
    the three expressions, and overrides the rest: the identifier is the
    one drawn, the creation time is now, the type is FIXED and the count is
    0.  It stores the rule under the key of that identifier, and when the
    store's event for that key reaches the watcher (the value decoding to
    what was encoded) the rule is in the map under that identifier. *)
Theorem Create_reaches_watcher now al sent a id data
    (Hid : uuid_NewV4 = inl id)
    (Henc : json_Marshal (snd (fst (Create now al sent))) = inl data)
    (Hdec : alertTestFromData json_Unmarshal data
            = Returns (Some (snd (fst (Create now al sent))))) :
  let al' := snd (fst (Create now al sent)) in
  Create now al sent
  = ((etcd_respond sent (EtcdSet (etcdPath id) data), al'),
     sent ++ [EtcdSet (etcdPath id) data])
  ∧ (Name al', Description al', Select al', Test al', Action al')
    = (Name al, Description al, Select al, Test al, Action al)
  ∧ (UUID_ al', CreateTime al', Type_ al', Count al') = (Some id, now, FIXED, 0)
  ∧ watcher a [inl {| EvAction := "set";
                      EvNode := {| Key := etcdPath id; Value_ := data; Dir := false |} |}]
    = Continue (with_alerts a (<[id := al']> (alerts a))).
Proof.
  intros al'. subst al'. revert Henc Hdec.
  unfold Alert.Create. rewrite Hid.
  set (stamped := mkAlertTest _ _ _ _ _ _ _ _ _).
  destruct (json_Marshal stamped) as [data'|e] eqn:Hm; cbn [fst snd].
  - rewrite Hm. intros [= ->] Hdec. split; [done|]. split; [done|]. split; [done|].
    rewrite watcher_single. unfold Alert.watcher_turn.
    cbn [Dir EvNode EvAction Value_].
    change (is_upsert "set") with true. cbv iota.
    rewrite Hdec.
    unfold SetAlertTest. by cbn [UUID_ stamped].
  - rewrite Hm. done.
Qed.

(** X28. [Delete] of a string that is no identifier returns the parser's
    error and sends nothing.  [Delete] of a printed identifier asks the
    store to delete the key of that identifier, and the store's event for
    that key makes the watcher remove the rule of that identifier and no
    other. *)
Theorem Delete_reaches_watcher id sent a (Hvalid : Gouuid.valid id) :
  Delete (UUID_String id) sent
  = (etcd_respond sent (EtcdDelete (etcdPath id)), sent ++ [EtcdDelete (etcdPath id)])
  ∧ watcher a [inl {| EvAction := "delete";
                      EvNode := {| Key := etcdPath id; Value_ := ""; Dir := false |} |}]
    = Continue (with_alerts a (delete id (alerts a)))
  ∧ (∀ s e, Gouuid.ParseHexE s = inr e -> Delete s sent = (Some e, sent)).
Proof.
  split; [|split].
  - unfold Alert.Delete, UUID_String. by rewrite GouuidProps.ParseHexE_String.
  - rewrite watcher_single. unfold Alert.watcher_turn.
    cbn [Dir EvNode EvAction Key].
    change (is_upsert "delete") with false. change (is_removal "delete") with true.
    cbv iota.
    destruct (etcdPath_roundtrip id) as [_ Hparse]. rewrite (Hparse Hvalid).
    by rewrite AlertProps.DeleteAlertTest_delete.
  - intros s e Hs. unfold Alert.Delete. by rewrite Hs.
Qed.

End Api.

Lemma manager0_well_keyed g : well_keyed (list Node) string (manager0 g).
Proof.
  intros k al. simpl. intros [<- <-]%lookup_singleton_Some. reflexivity.
Defined.

Lemma Set_Get_Delete_witness :
  let a : AlertManager (list Node) string :=
    {| Graph := []; alerts := ∅; eventListeners := [] |} in
  ∃ a', SetAlertTest (list Node) string a host_rule = Returns a'
        ∧ Get (list Node) string a' "3f2a9011-7c5d-4e8b-a102-6d9e10c455f0" = Some host_rule
        ∧ DeleteAlertTest (list Node) string a' rule_uuid = (None, a).
Proof.
  intros a.
  destruct (Set_Get_Delete (list Node) string a host_rule rule_uuid eq_refl
              AlertProps.valid_rule_uuid) as (a' & Hset & Hget & Hdel & _).
  exists a'. split; [exact Hset|]. split; [exact Hget|]. apply Hdel. reflexivity.
Defined.

Lemma eval_nodes_numbering_witness :
  ∃ al' msgs,
    eval_nodes eval_host_test 100 host_rule [h1; h2] = Returns (al', msgs)
    ∧ Count al' = 2 ∧ msg_Count <$> msgs = [1; 2].
Proof.
  eexists _, _. split; [reflexivity|].
  edestruct (eval_nodes_numbering eval_host_test 100 host_rule [h1; h2])
    as (Hcount & Hnumbers & _);
    [ | | reflexivity | ].
  - unfold int_min. simpl. lia.
  - unfold int_max. simpl. lia.
  - split; [exact Hcount | exact Hnumbers].
Defined.

Lemma well_keyed_kept_witness :
  ∃ msgs,
    EvalNodes (list Node) nodes_with_key eval_host_test string 100 (manager0 [h1])
    = Returns (manager0 [h1], msgs, fan_out string ["ws"] msgs).
Proof.
  exact (proj2 (well_keyed_kept (list Node) nodes_with_key (decode_only "" host_rule)
                  eval_host_test string (manager0 [h1]) (manager0_well_keyed [h1])) 100).
Defined.

Lemma listeners_form_a_set_witness :
  let a1 := AddEventListener (list Node) string
              (AddEventListener (list Node) string (manager0 []) "log") "log" in
  eventListeners a1 = ["ws"; "log"]
  ∧ snd <$> filter (λ c : string * AlertMessage, c.1 = "log")
              (fan_out string (eventListeners a1) [host_msg 100 h1 1; host_msg 100 h2 2])
    = [host_msg 100 h1 1; host_msg 100 h2 2].
Proof.
  intros a1. split; [reflexivity|].
  assert (Hnd : NoDup (eventListeners (manager0 []))) by apply NoDup_singleton.
  exact (proj1 (proj2 (proj2 (listeners_form_a_set (list Node) string (manager0 []) "log"
                                [host_msg 100 h1 1; host_msg 100 h2 2] Hnd)))).
Defined.

Lemma Create_reaches_watcher_witness :
  let a : AlertManager (list Node) string :=
    {| Graph := []; alerts := ∅; eventListeners := [] |} in
  fst (Create (inl rule_uuid) (encode_only host_rule "{rule}") accepts 0
         (set_Count host_rule 7) [])
  = (None, host_rule)
  ∧ watcher (list Node) (decode_only "{rule}" host_rule) string a
      [inl {| EvAction := "set";
              EvNode := {| Key := etcdPath rule_uuid; Value_ := "{rule}"; Dir := false |} |}]
    = Continue (with_alerts a {[rule_uuid := host_rule]}).
Proof.
  intros a. split; [reflexivity|].
  destruct (Create_reaches_watcher (list Node) (decode_only "{rule}" host_rule) string
              (inl rule_uuid) (encode_only host_rule "{rule}") accepts 0
              (set_Count host_rule 7) [] a rule_uuid "{rule}" eq_refl eq_refl eq_refl)
    as (_ & _ & _ & Hwatch).
  exact Hwatch.
Defined.

Lemma Delete_reaches_watcher_witness :
  Delete accepts "3f2a9011-7c5d-4e8b-a102-6d9e10c455f0" []
  = (None, [EtcdDelete "/alert/3f2a9011-7c5d-4e8b-a102-6d9e10c455f0"])
  ∧ watcher (list Node) (decode_only "{rule}" host_rule) string (manager0 [])
      [inl {| EvAction := "delete";
              EvNode := {| Key := etcdPath rule_uuid; Value_ := ""; Dir := false |} |}]
    = Continue (with_alerts (manager0 []) (delete rule_uuid (alerts (manager0 [])))).
Proof.
  destruct (Delete_reaches_watcher (list Node) (decode_only "{rule}" host_rule) string
              accepts rule_uuid [] (manager0 []) AlertProps.valid_rule_uuid)
    as (Hdel & Hwatch & _).
  split; [exact Hdel | exact Hwatch].
Defined.

End EngineProps.
